(** * The event service: crontab column type, event hooks, generators, pools

    A shallow embedding of [models.py] and [tasks.py] of the event
    service, and the properties of its scheduling core.

    Conventions.
    - A Python [str] is a list of Unicode code points ([pystr]); the
      pattern [\s] of [re] on a [str] is [str.isspace] on one code point.
    - A [dict] keeps insertion order (Python 3.7 and later), so it is an
      association list with update in place.
    - A [datetime] is a number of microseconds, a [timedelta] the
      normalised triple (days, seconds, microseconds) Python stores.
    - A raised exception is a constructor of [exn]; code that touches the
      clock, the Celery queue or the database runs in the monad [M] over
      [World] and an exception keeps the world as it was when raised.
    - A function under [as_future] stands for its body, run to its end
      where it is called; a [hybrid_property] read on an instance is the
      call of its function; [save()] keeps the attribute writes made on
      a row object, which the model applies to the table at once. *)

From Stdlib Require Import ZArith NArith Ascii String List Bool Lia.
From stdpp Require Import gmap strings list.

Open Scope Z_scope.

(** ** Python values shared by the modules *)

Inductive exn : Set :=
| ValueError
| TypeError
| AttributeError
| IndexError
| ObjectDeletedError.

Inductive result (A : Type) : Type :=
| Ok (a : A)
| Raise (e : exn).
Arguments Ok {A} a.
Arguments Raise {A} e.

(** A [str]: its code points. *)
Abbreviation pystr := (list N).

(** The [str] a source literal denotes. *)
Definition str_of (s : string) : pystr :=
  List.map N_of_ascii (list_ascii_of_string s).

(** [str.isspace] on one character, which is what [\s] of a [str] pattern
    matches: U+0009..U+000D, U+001C..U+0020, U+0085, U+00A0, U+1680,
    U+2000..U+200A, U+2028, U+2029, U+202F, U+205F, U+3000. *)
Definition isspace (c : N) : bool :=
  ((9 <=? c) && (c <=? 13) || (28 <=? c) && (c <=? 32)
   || (c =? 133) || (c =? 160) || (c =? 5760)
   || (8192 <=? c) && (c <=? 8202)
   || (c =? 8232) || (c =? 8233) || (c =? 8239) || (c =? 8287)
   || (c =? 12288))%N.

(** The space character of [' '.join]. *)
Definition SP : N := 32%N.

(** [re.split(r'\s+', s)], scanning left to right: [piece] is the text
    since the last match, [in_run] tells that the previous character was
    part of a match of [\s+] (the match is greedy, so it goes on as long as
    white space follows). The text after the last match is always
    returned, empty or not, and so is the text before a match at the very
    start. *)
Fixpoint split_from (in_run : bool) (piece : pystr) (s : pystr) : list pystr :=
  match s with
  | [] => [piece]
  | c :: s' =>
      if isspace c then
        if in_run then split_from true [] s'
        else piece :: split_from true [] s'
      else split_from false (piece ++ [c]) s'
  end.

Definition re_split_ws (s : pystr) : list pystr := split_from false [] s.

(** [sep.join(l)] *)
Fixpoint str_join (sep : pystr) (l : list pystr) : pystr :=
  match l with
  | [] => []
  | [x] => x
  | x :: l' => x ++ sep ++ str_join sep l'
  end.

(** An insertion-ordered [dict] with [str] literals as keys. *)
Module Dict.

Abbreviation t V := (list (string * V)).

(** [d[k] = v]: the value is replaced where the key is, a new key goes
    last. *)
Fixpoint set {V} (k : string) (v : V) (d : t V) : t V :=
  match d with
  | [] => [(k, v)]
  | (k', v') :: d' =>
      if String.eqb k k' then (k, v) :: d' else (k', v') :: set k v d'
  end.

(** [dict(pairs)] *)
Definition of_pairs {V} (pairs : list (string * V)) : t V :=
  fold_left (fun d kv => set (fst kv) (snd kv) d) pairs [].

(** [d.get(k)] *)
Fixpoint get {V} (k : string) (d : t V) : option V :=
  match d with
  | [] => None
  | (k', v) :: d' => if String.eqb k k' then Some v else get k d'
  end.

(** [list(d.values())] *)
Definition values {V} (d : t V) : list V := List.map snd d.

End Dict.

(** ** [CrontabType] *)

Module CrontabType.

(** [keys = ('minute', 'hour', 'day_of_week', 'day_of_month',
    'month_of_year')] *)
Definition keys : list string :=
  ["minute"; "hour"; "day_of_week"; "day_of_month"; "month_of_year"]%string.

(** [zip(a, b)] stops at the shorter argument. *)
Definition zip {A B} (a : list A) (b : list B) : list (A * B) :=
  List.combine a b.

(** [process_bind_param(self, value, dialect)]: the text of a crontab
    to the structured schedule. A [None] falls through the [if] and
    [None] is returned. *)
Definition process_bind_param (value : option pystr)
  : result (option (Dict.t pystr)) :=
  match value with
  | Some v =>
      let values := re_split_ws v in
      if negb (length values =? 5)%nat then Raise ValueError
      else Ok (Some (Dict.of_pairs (zip keys values)))
  | None => Ok None
  end.

(** [process_result_value(self, value, dialect)]: the structured
    schedule back to text. *)
Definition process_result_value (value : option (Dict.t pystr))
  : result (option pystr) :=
  match value with
  | Some d =>
      let values := Dict.values d in
      if negb (length values =? 5)%nat then Raise ValueError
      else Ok (Some (str_join [SP] values))
  | None => Ok None
  end.

(** The codec of the specification: [parse] binds, [format] reads
    back. *)
Definition parse (s : pystr) := process_bind_param (Some s).

Definition format_parsed (s : pystr) : result (option pystr) :=
  match parse s with
  | Ok d => process_result_value d
  | Raise e => Raise e
  end.

End CrontabType.

(** ** Time *)

(** A [datetime], in microseconds since the epoch. *)
Abbreviation datetime := Z.

(** A [timedelta] as Python stores it: any number of days, then
    [0 <= seconds < 86400] and [0 <= microseconds < 1000000]. *)
Record timedelta : Set := mkTimedelta {
  days : Z;
  seconds : Z;
  microseconds : Z
}.

Definition US_PER_SECOND : Z := 1000000.
Definition SECONDS_PER_DAY : Z := 86400.
Definition US_PER_DAY : Z := SECONDS_PER_DAY * US_PER_SECOND.

(** The normalisation of [timedelta(microseconds=us)]: floor division, so
    a negative difference has negative [days] and the other two fields
    count up from there. *)
Definition timedelta_of_us (us : Z) : timedelta :=
  {| days := us / US_PER_DAY;
     seconds := (us mod US_PER_DAY) / US_PER_SECOND;
     microseconds := (us mod US_PER_DAY) mod US_PER_SECOND |}.

(** [a - b] on two [datetime]s *)
Definition datetime_sub (a b : datetime) : timedelta := timedelta_of_us (a - b).

(** [timedelta.total_seconds()], in whole microseconds: what the triple
    stands for. *)
Definition total_us (d : timedelta) : Z :=
  days d * US_PER_DAY + seconds d * US_PER_SECOND + microseconds d.

(** [bool(d)]: a [timedelta] is false only when it is zero. *)
Definition timedelta_bool (d : timedelta) : bool :=
  negb ((days d =? 0) && (seconds d =? 0) && (microseconds d =? 0)).

(** The truth value of an [Optional[timedelta]]. *)
Definition truthy (d : option timedelta) : bool :=
  match d with
  | Some d => timedelta_bool d
  | None => false
  end.

(** ** Objects compared by identity *)

(** The values the column [run_scheme] can hold: [None], a [str] (as
    assigned by a caller) or the [Choice(code, value)] object that
    [ChoiceType] builds when a row is loaded. *)
Inductive pyval : Set :=
| VNone
| VStr (s : string)
| VChoice (code value : string).

(** An object: its identity (what [id()] returns) and its value. *)
Record pyobj : Set := mkObj {
  oid : positive;
  oval : pyval
}.

(** [a is b] *)
Definition py_is (a b : pyobj) : bool := Pos.eqb (oid a) (oid b).


(** The two literals of [EventGeneratorPool.run], constants of its code
    object. *)
Definition LIT_any : pyobj := {| oid := 1; oval := VStr "any" |}.
Definition LIT_all : pyobj := {| oid := 2; oval := VStr "all" |}.

(** ** Rows *)

Module Event.

Record t : Type := mk {
  id : option Z;
  name : option pystr;
  category_id : option Z;
  generator_id : option Z;
  created_at : option datetime;
  start_at : datetime;
  finish_at : datetime;
  payload : Dict.t pystr;
  is_active : bool;
  on_start_task_id : option Z;
  on_finish_task_id : option Z
}.

(** The row as the INSERT completes it: the primary key and the
    default of [created_at]. *)
Definition inserted (pk : Z) (t0 : datetime) (e : t) : t :=
  mk (Some pk) (name e) (category_id e) (generator_id e)
     (match created_at e with Some c => Some c | None => Some t0 end)
     (start_at e) (finish_at e) (payload e) (is_active e)
     (on_start_task_id e) (on_finish_task_id e).

Definition set_on_start_task_id (v : option Z) (e : t) : t :=
  mk (id e) (name e) (category_id e) (generator_id e) (created_at e)
     (start_at e) (finish_at e) (payload e) (is_active e)
     v (on_finish_task_id e).

Definition set_on_finish_task_id (v : option Z) (e : t) : t :=
  mk (id e) (name e) (category_id e) (generator_id e) (created_at e)
     (start_at e) (finish_at e) (payload e) (is_active e)
     (on_start_task_id e) v.

(** The event apart from its two task ids. *)
Definition without_task_ids (e : t) : t :=
  set_on_start_task_id None (set_on_finish_task_id None e).

End Event.

Module EventGenerator.

Record t : Type := mk {
  id : Z;
  name : pystr;
  pool_id : option Z;
  is_active : bool;
  enabled : bool;
  last_run_at : option datetime;
  total_run_count : Z;
  plan : option (Dict.t pystr);
  category_id : option Z;
  start_at : datetime;
  finish_at : datetime;
  payload : Dict.t pystr;
  task_id : option Z
}.

Definition set_is_active (v : bool) (g : t) : t :=
  mk (id g) (name g) (pool_id g) v (enabled g) (last_run_at g)
     (total_run_count g) (plan g) (category_id g) (start_at g)
     (finish_at g) (payload g) (task_id g).

Definition set_last_run_at (v : option datetime) (g : t) : t :=
  mk (id g) (name g) (pool_id g) (is_active g) (enabled g) v
     (total_run_count g) (plan g) (category_id g) (start_at g)
     (finish_at g) (payload g) (task_id g).

Definition set_total_run_count (v : Z) (g : t) : t :=
  mk (id g) (name g) (pool_id g) (is_active g) (enabled g) (last_run_at g)
     v (plan g) (category_id g) (start_at g)
     (finish_at g) (payload g) (task_id g).

End EventGenerator.

Module EventGeneratorPool.

Record t : Type := mk {
  id : Z;
  name : pystr;
  description : pystr;
  is_active : bool;
  run_scheme : pyobj;
  last_run_at : option datetime;
  total_run_count : Z;
  plan : option (Dict.t pystr);
  task_id : option Z
}.

End EventGeneratorPool.

(** ** The world outside the functions *)

(** A message published by [apply_async]. *)
Record Task : Set := mkTask {
  task_uuid : Z;
  task_name : string;
  task_args : option Z;
  task_countdown : Z
}.

(** What the code reads and writes besides its arguments:
    - [clock] and [ticks]: the successive values of [timezone.now()];
    - [rand] and [draws]: the successive values of the random source;
    - [sent], [revoked], [next_uuid]: the Celery side, the messages
      published (newest first), the ids handed to [revoke] and the next
      task id;
    - [events], [next_event], [generators], [pools]: the tables; a row
      object of the session is named by its primary key. *)
Record World : Type := mkWorld {
  clock : nat → datetime;
  ticks : nat;
  rand : nat → nat;
  draws : nat;
  sent : list Task;
  revoked : list Z;
  next_uuid : Z;
  events : gmap Z Event.t;
  next_event : Z;
  generators : gmap Z EventGenerator.t;
  pools : gmap Z EventGeneratorPool.t
}.

Definition with_ticks (v : nat) (w : World) : World :=
  mkWorld (clock w) v (rand w) (draws w) (sent w) (revoked w) (next_uuid w)
          (events w) (next_event w) (generators w) (pools w).

Definition with_draws (v : nat) (w : World) : World :=
  mkWorld (clock w) (ticks w) (rand w) v (sent w) (revoked w) (next_uuid w)
          (events w) (next_event w) (generators w) (pools w).

Definition with_sent (v : list Task) (n : Z) (w : World) : World :=
  mkWorld (clock w) (ticks w) (rand w) (draws w) v (revoked w) n
          (events w) (next_event w) (generators w) (pools w).


Definition with_events (v : gmap Z Event.t) (n : Z) (w : World) : World :=
  mkWorld (clock w) (ticks w) (rand w) (draws w) (sent w) (revoked w)
          (next_uuid w) v n (generators w) (pools w).

Definition with_generators (v : gmap Z EventGenerator.t) (w : World) : World :=
  mkWorld (clock w) (ticks w) (rand w) (draws w) (sent w) (revoked w)
          (next_uuid w) (events w) (next_event w) v (pools w).

(** The outcome of a call: a value or an exception, and the world as the
    call left it. *)
Inductive outcome (A : Type) : Type :=
| Return (a : A) (w : World)
| Throw (e : exn) (w : World).
Arguments Return {A} a w.
Arguments Throw {A} e w.

Definition M (A : Type) : Type := World → outcome A.

Definition ret {A} (a : A) : M A := fun w => Return a w.

Definition raise {A} (e : exn) : M A := fun w => Throw e w.

Definition bind {A B} (c : M A) (k : A → M B) : M B :=
  fun w =>
    match c w with
    | Return a w' => k a w'
    | Throw e w' => Throw e w'
    end.

Notation "x <- c ;; k" := (bind c (fun x => k))
  (at level 100, c at next level, right associativity).
Notation "c ;;; k" := (bind c (fun _ => k))
  (at level 100, right associativity).

(** The world a call leaves, however it ends. *)
Definition world_of {A} (o : outcome A) : World :=
  match o with
  | Return _ w => w
  | Throw _ w => w
  end.

(** The value a call returns, [None] when it raises. *)
Definition value_of {A} (o : outcome A) : option A :=
  match o with
  | Return a _ => Some a
  | Throw _ _ => None
  end.

(** [for x in l: body(x)] *)
Fixpoint for_each {A} (l : list A) (body : A → M unit) : M unit :=
  match l with
  | [] => ret tt
  | x :: l' => body x ;;; for_each l' body
  end.

(** [timezone.now()] *)
Definition now : M datetime :=
  fun w => Return (clock w (ticks w)) (with_ticks (S (ticks w)) w).

(** [random.choice(seq)]: [IndexError] on an empty sequence, else the
    element at a random index below its length. *)
Definition random_choice {A} (seq : list A) : M A :=
  fun w =>
    match seq !! (rand w (draws w) mod length seq)%nat with
    | Some x => Return x (with_draws (S (draws w)) w)
    | None => Throw IndexError w
    end.

(** [task.apply_async((arg,), countdown=countdown)]: the message is
    published and the id of the new task returned. *)
Definition apply_async (task : string) (arg : option Z) (countdown : Z) : M Z :=
  fun w =>
    Return (next_uuid w)
      (with_sent (mkTask (next_uuid w) task arg countdown :: sent w)
                 (next_uuid w + 1) w).


(** ** [Event] *)

(** The right operand of a comparison with a [datetime]. *)
Inductive operand : Set :=
| ODatetime (t : datetime)
| OCoroutine.

(** [a >= b] where [a] is a [datetime]: two [datetime]s are compared, any
    other operand has no ordering with a [datetime] and the comparison
    raises [TypeError]. *)
Definition datetime_ge (a : datetime) (b : operand) : M bool :=
  match b with
  | ODatetime t => ret (a >=? t)
  | OCoroutine => raise TypeError
  end.

(** [self.on_start()]: [on_start] is an [async def], so the call runs
    nothing of its body and returns a coroutine object. *)
Definition Event_on_start (self : Event.t) : M operand := ret OCoroutine.

(** [Event.active]:
    [return self.finish_at > timezone.now() >= self.on_start() and self.is_active].
    The middle operand of the chain is evaluated once; the second
    comparison, and with it the call of [on_start], is evaluated only when
    the first one holds. *)
Definition Event_active (self : Event.t) : M bool :=
  t <- now ;;
  if Event.finish_at self >? t then
    c <- Event_on_start self ;;
    b <- datetime_ge t c ;;
    ret (b && Event.is_active self)
  else ret false.

(** [Event.start_in]: [None] when the function falls off its end. *)
Definition Event_start_in (self : Event.t) : M (option timedelta) :=
  t <- now ;;
  if Event.start_at self >=? t then
    t' <- now ;;
    ret (Some (datetime_sub (Event.start_at self) t'))
  else ret None.

(** [Event.finish_in] *)
Definition Event_finish_in (self : Event.t) : M (option timedelta) :=
  t <- now ;;
  if Event.finish_at self >=? t then
    t' <- now ;;
    ret (Some (datetime_sub (Event.finish_at self) t'))
  else ret None.

(** [d.seconds] on an [Optional[timedelta]]: [None] has no such
    attribute. *)
Definition attr_seconds (d : option timedelta) : M Z :=
  match d with
  | Some d => ret (seconds d)
  | None => raise AttributeError
  end.

Definition ON_EVENT_START : string := "event.tasks.on_event_start".
Definition ON_EVENT_FINISH : string := "event.tasks.on_event_finish".

(** [on_event_create(mapper, connection, target)], the [before_insert]
    listener; the result is [target] as the listener leaves it. Each
    mention of [target.start_in] evaluates the property again. *)
Definition on_event_create (target : Event.t) : M Event.t :=
  if negb (Event.is_active target) then ret target
  else
    d <- Event_start_in target ;;
    target <- (if truthy d then
                 d' <- Event_start_in target ;;
                 countdown <- attr_seconds d' ;;
                 task <- apply_async ON_EVENT_START (Event.id target) countdown ;;
                 ret (Event.set_on_start_task_id (Some task) target)
               else ret target) ;;
    d <- Event_finish_in target ;;
    if truthy d then
      d' <- Event_finish_in target ;;
      countdown <- attr_seconds d' ;;
      task <- apply_async ON_EVENT_FINISH (Event.id target) countdown ;;
      ret (Event.set_on_finish_task_id (Some task) target)
    else ret target.




(** [Event.create] with keyword arguments, of the framework's model base, at the
    boundary of this code: the instance is built and inserted, which runs
    the [before_insert] listener first and then gives the row its
    primary key and the default of [created_at]. The constraints of the
    table (a [name] that is not null and unique) are the database's and
    are not modelled. *)
Definition Event_create (kwargs : Event.t) : M Event.t :=
  target <- on_event_create kwargs ;;
  t <- now ;;
  fun w =>
    let row := Event.inserted (next_event w) t target in
    Return row (with_events (<[next_event w := row]> (events w))
                            (next_event w + 1) w).

(** ** [EventGenerator] *)

(** An attribute read on the row object [self] of the session. *)
Definition the_generator (self : Z) : M EventGenerator.t :=
  fun w =>
    match generators w !! self with
    | Some g => Return g w
    | None => Throw ObjectDeletedError w
    end.

(** An attribute write on the row object [self], kept by the [save()]
    that follows it. *)
Definition update_generator (self : Z) (f : EventGenerator.t → EventGenerator.t)
  : M unit :=
  fun w => Return tt (with_generators (alter f self (generators w)) w).

(** [EventGenerator.run(self, is_active=True)] *)
Definition EventGenerator_run (self : Z) (is_active : bool) : M Event.t :=
  t <- now ;;
  update_generator self (EventGenerator.set_last_run_at (Some t)) ;;;
  update_generator self
    (fun g => EventGenerator.set_total_run_count
                (EventGenerator.total_run_count g + 1) g) ;;;
  g <- the_generator self ;;
  Event_create
    {| Event.id := None;
       Event.name := None;
       Event.category_id := EventGenerator.category_id g;
       Event.generator_id := Some (EventGenerator.id g);
       Event.created_at := None;
       Event.start_at := EventGenerator.start_at g;
       Event.finish_at := EventGenerator.finish_at g;
       Event.payload := EventGenerator.payload g;
       Event.is_active := is_active;
       Event.on_start_task_id := None;
       Event.on_finish_task_id := None |}.

(** [EventGenerator.active] *)
Definition EventGenerator_active (self : Z) : M bool :=
  g <- the_generator self ;;
  if negb (EventGenerator.enabled g) then ret false
  else
    match EventGenerator.pool_id g with
    | Some p =>
        fun w =>
          match pools w !! p with
          | Some pool => Return (EventGeneratorPool.is_active pool) w
          | None => Throw AttributeError w
          end
    | None => ret (EventGenerator.is_active g)
    end.


(** ** [EventGeneratorPool] *)

(** The rows of [self.generators] with [enabled = True]. *)
Definition is_enabled_member (pool : Z) (g : EventGenerator.t) : bool :=
  match EventGenerator.pool_id g with
  | Some p => (p =? pool) && EventGenerator.enabled g
  | None => false
  end.

(** [self.generators.query.filter_by(enabled=True).all()]: the row
    objects, each named by its primary key. *)
Definition enabled_generators_of (pool : Z) (w : World) : list Z :=
  fst <$> filter (fun kv => is_enabled_member pool (snd kv) = true)
                 (map_to_list (generators w)).

Definition query_enabled_generators (pool : Z) : M (list Z) :=
  fun w => Return (enabled_generators_of pool w) w.

(** An attribute read on the pool [self]. *)
Definition the_pool (self : Z) : M EventGeneratorPool.t :=
  fun w =>
    match pools w !! self with
    | Some p => Return p w
    | None => Throw ObjectDeletedError w
    end.

(** [EventGeneratorPool.run(self)] *)
Definition EventGeneratorPool_run (self : Z) : M unit :=
  enabled_generators <- query_enabled_generators self ;;
  p <- the_pool self ;;
  prepared_generators <-
    (if py_is (EventGeneratorPool.run_scheme p) LIT_any then
       g <- random_choice enabled_generators ;; ret [g]
     else if py_is (EventGeneratorPool.run_scheme p) LIT_all then
       ret enabled_generators
     else ret []) ;;
  for_each enabled_generators
    (fun gen => update_generator gen (EventGenerator.set_is_active false)) ;;;
  for_each prepared_generators
    (fun gen => update_generator gen (EventGenerator.set_is_active true)).


(** ** [tasks.py] *)

Module tasks.



End tasks.

(** ** The words of the specification *)

(** The number of whitespace-separated fields of a text: its maximal
    runs of characters that are not white space. [prev_space] tells that
    a field would start at the next such character. *)
Fixpoint count_fields (prev_space : bool) (s : pystr) : nat :=
  match s with
  | [] => 0
  | c :: s' =>
      if isspace c then count_fields true s'
      else ((if prev_space then 1 else 0) + count_fields false s')%nat
  end.

Definition spec_field_count (s : pystr) : nat := count_fields true s.

(** A field of a well-formed crontab text: not empty, no white space. *)
Definition wf_field (f : pystr) : bool :=
  match f with
  | [] => false
  | _ :: _ => forallb (fun c => negb (isspace c)) f
  end.

(** Where a text stands with respect to white space at its two ends:
    [leading_space] when it is empty or starts with white space,
    [final_space b] when it ends with white space ([b] for the empty
    text). *)
Definition leading_space (s : pystr) : bool :=
  match s with
  | [] => true
  | c :: _ => isspace c
  end.

Definition final_space (b : bool) (s : pystr) : bool :=
  fold_left (fun _ c => isspace c) s b.



(** A clock that stands still at [t]. *)
Definition frozen (t : datetime) : nat → datetime := fun _ => t.

(** [keeps f c]: the call [c] leaves the component [f] of the world as it
    was, however it ends. *)
Definition keeps {A B} (f : World → B) (c : M A) : Prop :=
  ∀ w, f (world_of (c w)) = f w.

(** ** More of [Event] *)

(** [Event.started]: [return self.start_at >= timezone.now()] *)
Definition Event_started (self : Event.t) : M bool :=
  t <- now ;; ret (Event.start_at self >=? t).

(** [Event.finished]: [return self.finish_at < timezone.now()] *)
Definition Event_finished (self : Event.t) : M bool :=
  t <- now ;; ret (Event.finish_at self <? t).

(** ** Shapes of split texts *)

(** No character of the text is white space. *)
Definition no_space (f : pystr) : bool :=
  forallb (fun c => negb (isspace c)) f.

(** What follows the first piece of a split: pieces free of white space,
    none of them empty but possibly the last. *)
Fixpoint tail_ok (fs : list pystr) : bool :=
  match fs with
  | [] => true
  | [g] => no_space g
  | g :: fs' => wf_field g && tail_ok fs'
  end.

(** ** [EventParticipation] and [Event.leave] *)

Module EventParticipation.

Record t : Type := mk {
  id : Z;
  created_at : datetime;
  status : string;
  payload : Dict.t pystr;
  user_id : Z;
  event_id : Z
}.

Definition set_status (v : string) (p : t) : t :=
  mk (id p) (created_at p) v (payload p) (user_id p) (event_id p).

End EventParticipation.

(** What [leave] reads and writes: the table of participations in the
    order of its rows (a row object is named by its position), the targets
    of the [on_status_changed] callbacks handed to the loop (newest
    first), and the number of warnings logged. *)
Record Ledger : Type := mkLedger {
  participations : list EventParticipation.t;
  callbacks : list Z;
  warnings : nat
}.

(** [on_event_participation_status_changed(target, value, oldvalue,
    initiator)], the listener of [set] on [status]. *)
Definition on_event_participation_status_changed
    (target : EventParticipation.t) (value oldvalue : string) (l : Ledger)
  : Ledger :=
  if negb (String.eqb value oldvalue)
  then mkLedger (participations l)
                (EventParticipation.id target :: callbacks l) (warnings l)
  else l.

(** [p.status = value; p.save()] on the row at position [i]: the listener
    runs with the old value, then the row holds the new one. *)
Definition assign_status (i : nat) (value : string) (l : Ledger) : Ledger :=
  match participations l !! i with
  | Some p =>
      let l' := on_event_participation_status_changed
                  p value (EventParticipation.status p) l in
      mkLedger (<[i := EventParticipation.set_status value p]> (participations l'))
               (callbacks l') (warnings l')
  | None => l
  end.

(** [filter_by(user_id=user_id, event_id=event_id, status=status)] on one
    row; an [event_id] of [None] matches no row. *)
Definition participation_matches (user_id : Z) (event_id : option Z)
    (status : string) (p : EventParticipation.t) : bool :=
  (EventParticipation.user_id p =? user_id)
  && match event_id with
     | Some e => EventParticipation.event_id p =? e
     | None => false
     end
  && String.eqb (EventParticipation.status p) status.

(** [query.filter_by(...).first()]: the position of the first row that
    matches, or [None]. *)
Fixpoint first_index {A} (P : A → bool) (rows : list A) : option nat :=
  match rows with
  | [] => None
  | r :: rows' => if P r then Some 0%nat else S <$> first_index P rows'
  end.

(** [Event.leave(self, user_id)] *)
Definition Event_leave (self : Event.t) (user_id : Z) (l : Ledger) : Ledger :=
  match first_index (participation_matches user_id (Event.id self) "joined")
                    (participations l) with
  | Some p => assign_status p "leaved" l
  | None => mkLedger (participations l) (callbacks l) (S (warnings l))
  end.

(** The key of the table's unique constraint. *)
Definition participation_key (p : EventParticipation.t) : Z * Z :=
  (EventParticipation.user_id p, EventParticipation.event_id p).

(** What a call answers, apart from the world: its value or its
    exception. *)
Definition result_of {A} (o : outcome A) : result A :=
  match o with
  | Return a _ => Ok a
  | Throw e _ => Raise e
  end.

(** ** Sample data for the examples *)

(** Nothing scheduled, nothing stored; the clock is [clk]. *)
Definition empty_world (clk : nat → datetime) : World :=
  mkWorld clk 0 (fun _ => 0%nat) 0 [] [] 0 ∅ 1 ∅ ∅.

(** The event with primary key 1. *)
Definition sample_event (is_active : bool) (start_at finish_at : datetime)
    (on_start_task_id on_finish_task_id : option Z) : Event.t :=
  Event.mk (Some 1) (Some (str_of "e1")) None None (Some 0)
           start_at finish_at [] is_active
           on_start_task_id on_finish_task_id.

Definition sample_generator (id : Z) (pool_id : option Z)
    (is_active enabled : bool) : EventGenerator.t :=
  EventGenerator.mk id (str_of "g") pool_id is_active enabled None 0 None
                    None 0 10 [] None.

Definition sample_pool (run_scheme : pyobj) : EventGeneratorPool.t :=
  EventGeneratorPool.mk 1 (str_of "p") [] true run_scheme None 0 None None.

(** Pool 1 with the generators 1, 2, 3 (enabled) and 4 (disabled), all
    active; the clock stands at 5 and every random draw is [r]. *)
Definition sample_world (run_scheme : pyobj) (r : nat) : World :=
  mkWorld (frozen 5) 0 (fun _ => r) 0 [] [] 100 ∅ 1
    (<[1 := sample_generator 1 (Some 1) true true]>
       (<[2 := sample_generator 2 (Some 1) true true]>
          (<[3 := sample_generator 3 (Some 1) true true]>
             (<[4 := sample_generator 4 (Some 1) true false]> ∅))))
    (<[1 := sample_pool run_scheme]> ∅).


(** ** Properties *)

(** *** Splitting and joining *)

Lemma split_from_nonspace b p c s :
  isspace c = false → split_from b p (c :: s) = split_from false (p ++ [c]) s.
Proof. intros H. simpl. by rewrite H. Qed.

Lemma wf_field_inv f :
  wf_field f = true →
  ∃ c f', f = c :: f' ∧ isspace c = false
          ∧ forallb (fun c => negb (isspace c)) f' = true.
Proof.
  destruct f as [|c f']; simpl; [discriminate|].
  intros [Hc Hf]%andb_true_iff. exists c, f'.
  by apply negb_true_iff in Hc.
Qed.

(** Characters that are not white space only extend the current piece. *)
Lemma split_from_run f : ∀ p rest,
  forallb (fun c => negb (isspace c)) f = true →
  split_from false p (f ++ rest) = split_from false (p ++ f) rest.
Proof.
  induction f as [|c f IH]; intros p rest Hf; simpl in *.
  - by rewrite app_nil_r.
  - apply andb_true_iff in Hf as [Hc Hf]. apply negb_true_iff in Hc.
    rewrite Hc, IH by done. by rewrite <- app_assoc.
Qed.

Lemma split_from_field b p f rest :
  wf_field f = true →
  split_from b p (f ++ rest) = split_from false (p ++ f) rest.
Proof.
  intros (c & f' & -> & Hc & Hf)%wf_field_inv.
  rewrite <- app_comm_cons, split_from_nonspace by done.
  rewrite split_from_run by done. by rewrite <- app_assoc.
Qed.

Lemma str_join_cons2 sep x y l :
  str_join sep (x :: y :: l) = x ++ sep ++ str_join sep (y :: l).
Proof. reflexivity. Qed.

Lemma str_join_cons_app sep x l :
  ∃ rest, str_join sep (x :: l) = x ++ rest.
Proof.
  destruct l as [|y l].
  - exists []. simpl. by rewrite app_nil_r.
  - eexists. apply str_join_cons2.
Qed.

(** Splitting the join of well-formed fields gives the fields back,
    whatever piece was being read. *)
Lemma split_from_join fs : ∀ b p f,
  forallb wf_field (f :: fs) = true →
  split_from b p (str_join [SP] (f :: fs)) = (p ++ f) :: fs.
Proof.
  induction fs as [|g fs IH]; intros b p f Hwf.
  - simpl in Hwf. apply andb_true_iff in Hwf as [Hf _].
    replace (str_join [SP] [f]) with (f ++ []) by (simpl; apply app_nil_r).
    by rewrite split_from_field.
  - change (forallb wf_field (f :: g :: fs))
      with (wf_field f && forallb wf_field (g :: fs)) in Hwf.
    apply andb_true_iff in Hwf as [Hf Hrest].
    rewrite str_join_cons2, split_from_field by done.
    change ([SP] ++ str_join [SP] (g :: fs)) with (SP :: str_join [SP] (g :: fs)).
    cbn [split_from]. change (isspace SP) with true. cbn iota.
    f_equal. by rewrite IH.
Qed.

Lemma re_split_ws_join f fs :
  forallb wf_field (f :: fs) = true →
  re_split_ws (str_join [SP] (f :: fs)) = f :: fs.
Proof. intros H. unfold re_split_ws. by rewrite split_from_join. Qed.

(** *** Pieces of the split against fields of the text *)

Lemma final_space_cons b c s : final_space b (c :: s) = final_space (isspace c) s.
Proof. reflexivity. Qed.

Lemma length_split_from s : ∀ b p,
  length (split_from b p s)
  = (count_fields b s + (if final_space b s then 1 else 0)
     + (if b then 0 else 1))%nat.
Proof.
  induction s as [|c s IH]; intros b p.
  - by destruct b.
  - rewrite final_space_cons. cbn [split_from count_fields].
    destruct (isspace c) eqn:Hc.
    + destruct b; cbn [length]; rewrite IH; lia.
    + rewrite IH. destruct b; lia.
Qed.

Lemma count_fields_leading s :
  spec_field_count s
  = (count_fields false s + (if leading_space s then 0 else 1))%nat.
Proof.
  unfold spec_field_count. destruct s as [|c s]; simpl; [done|].
  destruct (isspace c); lia.
Qed.

(** The split has one piece per field, one more when the text ends with
    white space, one more when it is empty or starts with white space. *)
Lemma pieces_and_fields s :
  length (re_split_ws s)
  = (spec_field_count s + (if final_space false s then 1 else 0)
     + (if leading_space s then 1 else 0))%nat.
Proof.
  unfold re_split_ws. rewrite length_split_from, count_fields_leading.
  destruct (leading_space s); lia.
Qed.

Lemma parse_raises_iff s :
  CrontabType.parse s = Raise ValueError ↔ length (re_split_ws s) ≠ 5%nat.
Proof.
  unfold CrontabType.parse, CrontabType.process_bind_param. cbv zeta.
  destruct (Nat.eqb_spec (length (re_split_ws s)) 5) as [->|Hne]; simpl.
  - split; [discriminate|congruence].
  - done.
Qed.

(** On a text with no white space at either end the count of the code is
    the count of fields. *)
Lemma parse_raises_iff_fields s :
  leading_space s = false → final_space false s = false →
  CrontabType.parse s = Raise ValueError ↔ spec_field_count s ≠ 5%nat.
Proof.
  intros Hl Hf. rewrite parse_raises_iff, pieces_and_fields, Hl, Hf.
  lia.
Qed.

Example parse_five_letters :
  ∃ d, CrontabType.parse (str_of "a b c d e") = Ok (Some d).
Proof. eexists. reflexivity. Qed.

Example parse_three_stars :
  CrontabType.parse (str_of "* * *") = Raise ValueError.
Proof. reflexivity. Qed.

(** **** C4 — round trip. For every text made of five well-formed fields
    (not empty, free of white space) joined by single spaces, formatting
    the parsed schedule gives the text back. *)
Theorem crontab_round_trip (fs : list pystr) :
  forallb wf_field fs = true → length fs = 5%nat →
  CrontabType.format_parsed (str_join [SP] fs) = Ok (Some (str_join [SP] fs)).
Proof.
  intros Hwf Hlen.
  destruct fs as [|f0 [|f1 [|f2 [|f3 [|f4 [|]]]]]]; try discriminate Hlen.
  unfold CrontabType.format_parsed, CrontabType.parse,
    CrontabType.process_bind_param.
  cbv zeta. rewrite re_split_ws_join by done. reflexivity.
Qed.

Lemma crontab_round_trip_witness :
  CrontabType.format_parsed (str_of "*/5 0 * 1 mon")
  = Ok (Some (str_of "*/5 0 * 1 mon")).
Proof.
  exact (crontab_round_trip
           (List.map str_of ["*/5"; "0"; "*"; "1"; "mon"]%string)
           eq_refl eq_refl).
Defined.

(** **** C5 — a text of four fields that starts with a space is accepted:
    the split yields an empty first piece, five pieces in all, and the
    schedule gets an empty minute. *)
Theorem parse_accepts_four_fields :
  spec_field_count (str_of " * * * *") = 4%nat
  ∧ CrontabType.parse (str_of " * * * *")
    = Ok (Some [("minute", []); ("hour", str_of "*");
                ("day_of_week", str_of "*"); ("day_of_month", str_of "*");
                ("month_of_year", str_of "*")]%string).
Proof. split; reflexivity. Qed.

(** The other way round, five fields after a space are refused. *)
Example parse_refuses_five_fields :
  spec_field_count (str_of " a b c d e") = 5%nat
  ∧ CrontabType.parse (str_of " a b c d e") = Raise ValueError.
Proof. split; reflexivity. Qed.

(** **** C6, as the code has it — the five fields go, in the order of the
    text, to minute, hour, day_of_week, day_of_month, month_of_year: the
    third field is the day of the week, the fourth the day of the month,
    the fifth the month. *)
Theorem parse_field_order (f0 f1 f2 f3 f4 : pystr) :
  forallb wf_field [f0; f1; f2; f3; f4] = true →
  ∃ d, CrontabType.parse (str_join [SP] [f0; f1; f2; f3; f4]) = Ok (Some d)
       ∧ Dict.get "minute" d = Some f0
       ∧ Dict.get "hour" d = Some f1
       ∧ Dict.get "day_of_week" d = Some f2
       ∧ Dict.get "day_of_month" d = Some f3
       ∧ Dict.get "month_of_year" d = Some f4.
Proof.
  intros Hwf. unfold CrontabType.parse, CrontabType.process_bind_param.
  cbv zeta. rewrite re_split_ws_join by done.
  eexists. split; [reflexivity|]. repeat split.
Qed.

Lemma parse_field_order_witness :
  ∃ d, CrontabType.parse (str_of "1 2 3 4 5") = Ok (Some d)
       ∧ Dict.get "minute" d = Some (str_of "1")
       ∧ Dict.get "hour" d = Some (str_of "2")
       ∧ Dict.get "day_of_week" d = Some (str_of "3")
       ∧ Dict.get "day_of_month" d = Some (str_of "4")
       ∧ Dict.get "month_of_year" d = Some (str_of "5").
Proof.
  exact (parse_field_order (str_of "1") (str_of "2") (str_of "3")
           (str_of "4") (str_of "5") eq_refl).
Defined.

(** **** C6, as stated, fails on "1 2 3 4 5": the third field is not the
    day of the month and the fifth is not the day of the week. *)
Lemma parse_third_field_is_not_day_of_month :
  ¬ (∃ d, CrontabType.parse (str_of "1 2 3 4 5") = Ok (Some d)
          ∧ Dict.get "day_of_month" d = Some (str_of "3")
          ∧ Dict.get "day_of_week" d = Some (str_of "5")).
Proof.
  intros (d & Hd & H3 & _). vm_compute in Hd.
  injection Hd as <-. vm_compute in H3. discriminate H3.
Qed.

(** *** The monad *)

Lemma world_of_bind {A B} (c : M A) (k : A → M B) w :
  world_of (bind c k w)
  = match c w with
    | Return a w' => world_of (k a w')
    | Throw _ w' => w'
    end.
Proof. unfold bind. by destruct (c w). Qed.

Lemma keeps_ret {A B} (f : World → B) (a : A) : keeps f (ret a).
Proof. by intros w. Qed.

Lemma keeps_raise {A B} (f : World → B) e : keeps f (raise (A:=A) e).
Proof. by intros w. Qed.

Lemma keeps_bind {A B C} (f : World → C) (c : M A) (k : A → M B) :
  keeps f c → (∀ a, keeps f (k a)) → keeps f (bind c k).
Proof.
  intros Hc Hk w. rewrite world_of_bind. specialize (Hc w).
  destruct (c w) as [a w'|e w']; simpl in *; [|done].
  by rewrite Hk.
Qed.

Lemma keeps_for_each {A B} (f : World → B) (l : list A) body :
  (∀ x, keeps f (body x)) → keeps f (for_each l body).
Proof.
  intros Hb. induction l as [|x l IH]; simpl.
  - apply keeps_ret.
  - apply keeps_bind; [apply Hb | intros _; apply IH].
Qed.

Ltac keeps_step :=
  match goal with
  | |- keeps _ (bind _ _) => apply keeps_bind; [|intros ?]
  | |- keeps _ (ret _) => apply keeps_ret
  | |- keeps _ (raise _) => apply keeps_raise
  | |- keeps _ (for_each _ _) => apply keeps_for_each; intros ?
  | |- keeps _ (if ?b then _ else _) => destruct b
  | |- keeps _ (match ?x with _ => _ end) => destruct x
  end.

(** *** [Event.active] *)

Lemma Event_active_cases self w :
  Event_active self w
  = if Event.finish_at self >? clock w (ticks w)
    then Throw TypeError (with_ticks (S (ticks w)) w)
    else Return false (with_ticks (S (ticks w)) w).
Proof.
  unfold Event_active, bind, now.
  by destruct (Event.finish_at self >? clock w (ticks w)).
Qed.

(** Whatever the event and the time, the property never answers [True]. *)
Lemma Event_active_never_true self w w' : Event_active self w ≠ Return true w'.
Proof.
  rewrite Event_active_cases.
  by destruct (Event.finish_at self >? clock w (ticks w)).
Qed.

(** **** C2 — an event with [is_active] set, started at 0 and finishing at
    10, read at time 5: the property raises [TypeError] where the
    specification says it is active. *)
Theorem Event_active_inside_window :
  let e := sample_event true 0 10 None None in
  let w := empty_world (frozen 5) in
  Event.is_active e = true
  ∧ Event.start_at e <= clock w 0 < Event.finish_at e
  ∧ Event_active e w = Throw TypeError (with_ticks 1 w).
Proof. cbv zeta. repeat split; try reflexivity. vm_compute. discriminate. Qed.

(** *** The listeners of [Event] *)











(** *** The countdown of the one-shot tasks *)

Lemma timedelta_of_us_zero d :
  timedelta_bool (timedelta_of_us d) = negb (d =? 0).
Proof.
  unfold timedelta_bool, timedelta_of_us. cbn [days seconds microseconds].
  f_equal.
  pose proof (Z.div_mod d US_PER_DAY ltac:(done)) as H1.
  pose proof (Z.div_mod (d mod US_PER_DAY) US_PER_SECOND ltac:(done)) as H2.
  destruct (Z.eqb_spec d 0) as [->|Hd]; [reflexivity|].
  apply andb_false_iff.
  destruct (Z.eqb_spec ((d mod US_PER_DAY) mod US_PER_SECOND) 0) as [E3|]; [|by right].
  left. apply andb_false_iff.
  destruct (Z.eqb_spec ((d mod US_PER_DAY) / US_PER_SECOND) 0) as [E2|]; [|by right].
  left. apply Z.eqb_neq. intros E1. apply Hd. lia.
Qed.

(** The three fields together are the whole difference, which is what
    [total_seconds()] reads. *)
Lemma total_us_of_us d : total_us (timedelta_of_us d) = d.
Proof.
  unfold total_us, timedelta_of_us. cbn [days seconds microseconds].
  pose proof (Z.div_mod d US_PER_DAY ltac:(done)).
  pose proof (Z.div_mod (d mod US_PER_DAY) US_PER_SECOND ltac:(done)).
  lia.
Qed.

(** [.seconds] is blind to whole days: a delay and the same delay plus
    [k] days give the same countdown. *)
Lemma seconds_drops_days d k :
  seconds (timedelta_of_us (d + k * US_PER_DAY)) = seconds (timedelta_of_us d).
Proof.
  unfold timedelta_of_us. cbn [seconds]. by rewrite Z.mod_add.
Qed.

(** Below one day it is the delay in whole seconds, rounded down. *)
Lemma seconds_below_a_day d :
  0 <= d < US_PER_DAY → seconds (timedelta_of_us d) = d / US_PER_SECOND.
Proof.
  intros H. unfold timedelta_of_us. cbn [seconds]. by rewrite Z.mod_small.
Qed.

Lemma Event_start_in_frozen self w t :
  clock w = frozen t → t <= Event.start_at self →
  Event_start_in self w
  = Return (Some (datetime_sub (Event.start_at self) t))
           (with_ticks (S (S (ticks w))) w).
Proof.
  intros Hc Ht. unfold Event_start_in, bind, now. cbn. rewrite !Hc.
  unfold frozen.
  destruct (Z.geb_spec (Event.start_at self) t); [|lia].
  cbn. by rewrite !Hc.
Qed.

Lemma Event_finish_in_frozen self w t :
  clock w = frozen t →
  Event_finish_in self w
  = if Event.finish_at self >=? t
    then Return (Some (datetime_sub (Event.finish_at self) t))
                (with_ticks (S (S (ticks w))) w)
    else Return None (with_ticks (S (ticks w)) w).
Proof.
  intros Hc. unfold Event_finish_in, bind, now. cbn. rewrite !Hc.
  unfold frozen.
  destruct (Event.finish_at self >=? t); [|done].
  cbn. by rewrite !Hc.
Qed.

Lemma bind_Return {A B} (c : M A) (k : A → M B) w a w' :
  c w = Return a w' → bind c k w = k a w'.
Proof. intros H. unfold bind. by rewrite H. Qed.

(** The second half of the listeners, about [finish_at], under a clock
    that stands still: it returns, keeps the start task id and drops no
    message. *)
Lemma finish_half_frozen target w t :
  clock w = frozen t →
  ∃ e w',
    (d <- Event_finish_in target ;;
     if truthy d then
       d' <- Event_finish_in target ;;
       countdown <- attr_seconds d' ;;
       task <- apply_async ON_EVENT_FINISH (Event.id target) countdown ;;
       ret (Event.set_on_finish_task_id (Some task) target)
     else ret target) w = Return e w'
    ∧ Event.on_start_task_id e = Event.on_start_task_id target
    ∧ Event.without_task_ids e = Event.without_task_ids target
    ∧ ∀ x, x ∈ sent w → x ∈ sent w'.
Proof.
  intros Hc.
  pose proof (Event_finish_in_frozen target w t Hc) as H1.
  pose proof (Event_finish_in_frozen target
                (with_ticks (S (S (ticks w))) w) t Hc) as H2.
  destruct (Event.finish_at target >=? t).
  - destruct (timedelta_bool (datetime_sub (Event.finish_at target) t)) eqn:Hb.
    + eexists _, _. split; [|split; [|split]].
      * erewrite bind_Return by exact H1. cbn [truthy]. rewrite Hb.
        erewrite bind_Return by exact H2. reflexivity.
      * reflexivity.
      * reflexivity.
      * intros x Hx. cbn. by constructor.
    + eexists _, _. split; [|split; [|split]].
      * erewrite bind_Return by exact H1. cbn [truthy]. rewrite Hb.
        reflexivity.
      * reflexivity.
      * reflexivity.
      * done.
  - eexists _, _. split; [|split; [|split]].
    + erewrite bind_Return by exact H1. reflexivity.
    + reflexivity.
    + reflexivity.
    + done.
Qed.

Lemma on_event_create_start_countdown target w t :
  clock w = frozen t → Event.is_active target = true →
  t < Event.start_at target →
  ∃ e w',
    on_event_create target w = Return e w'
    ∧ Event.on_start_task_id e = Some (next_uuid w)
    ∧ mkTask (next_uuid w) ON_EVENT_START (Event.id target)
             (seconds (datetime_sub (Event.start_at target) t)) ∈ sent w'.
Proof.
  intros Hc Ha Ht.
  pose proof (Event_start_in_frozen target w t Hc ltac:(lia)) as H1.
  pose proof (Event_start_in_frozen target
                (with_ticks (S (S (ticks w))) w) t Hc ltac:(lia)) as H2.
  pose proof (timedelta_of_us_zero (Event.start_at target - t)) as Hb.
  destruct (Z.eqb_spec (Event.start_at target - t) 0); [lia|]. cbn [negb] in Hb.
  set (target1 := Event.set_on_start_task_id (Some (next_uuid w)) target).
  set (task := mkTask (next_uuid w) ON_EVENT_START (Event.id target)
                 (seconds (datetime_sub (Event.start_at target) t))).
  set (w1 := with_sent (task :: sent w) (next_uuid w + 1)
               (with_ticks (S (S (S (S (ticks w))))) w)).
  destruct (finish_half_frozen target1 w1 t Hc)
    as (e & w' & Hrun & He & _ & Hsent).
  exists e, w'. split; [|split].
  - unfold on_event_create. rewrite Ha. cbn [negb].
    erewrite bind_Return by exact H1. cbn [truthy].
    unfold datetime_sub at 1. rewrite Hb.
    erewrite bind_Return; [exact Hrun|].
    erewrite bind_Return by exact H2. reflexivity.
  - by rewrite He.
  - apply Hsent. cbn. by constructor.
Qed.

(** **** C3 — an active event created two days before its start: the start
    task is published with a countdown of 0 seconds, where the delay to
    [start_at] is 172800 seconds; the finish task, three days ahead, gets
    0 seconds as well. *)
Theorem start_task_two_days_ahead :
  let target := sample_event true (2 * US_PER_DAY) (3 * US_PER_DAY) None None in
  let w := empty_world (frozen 0) in
  let o := on_event_create target w in
  sent (world_of o) = [mkTask 1 ON_EVENT_FINISH (Some 1) 0;
                       mkTask 0 ON_EVENT_START (Some 1) 0]
  ∧ Event.on_start_task_id <$> value_of o = Some (Some 0)
  ∧ (Event.start_at target - clock w 0) / US_PER_SECOND = 172800.
Proof. cbv zeta. repeat split; vm_compute; reflexivity. Qed.

(** *** What the listeners and [Event.create] leave alone *)

Lemma keeps_on_event_create {B} (f : World → B) target :
  (∀ w n, f (with_ticks n w) = f w) →
  (∀ w l n, f (with_sent l n w) = f w) →
  keeps f (on_event_create target).
Proof.
  intros Hticks Hsent.
  unfold on_event_create, Event_start_in, Event_finish_in, attr_seconds.
  repeat keeps_step;
    try (intros w; cbn [world_of now apply_async]; auto).
Qed.

Lemma keeps_generators_Event_create kwargs :
  keeps generators (Event_create kwargs).
Proof.
  unfold Event_create. repeat keeps_step.
  - by apply keeps_on_event_create.
  - by intros w.
  - by intros w.
Qed.

(** *** [EventGenerator.run] and its handler *)



Lemma Event_start_in_frozen_cases self w t :
  clock w = frozen t →
  Event_start_in self w
  = if Event.start_at self >=? t
    then Return (Some (datetime_sub (Event.start_at self) t))
                (with_ticks (S (S (ticks w))) w)
    else Return None (with_ticks (S (ticks w)) w).
Proof.
  intros Hc. unfold Event_start_in, bind, now. cbn. rewrite !Hc.
  unfold frozen.
  destruct (Event.start_at self >=? t); [|done].
  cbn. by rewrite !Hc.
Qed.







(** *** [EventGeneratorPool.run] *)

(** A loop of attribute writes is a fold of [alter] over the table. *)
Lemma for_each_update l f : ∀ w,
  for_each l (fun gen => update_generator gen f) w
  = Return tt (with_generators
                 (foldl (fun m k => alter f k m) (generators w) l) w).
Proof.
  induction l as [|k l IH]; intros w.
  - by destruct w.
  - cbn [for_each foldl]. unfold bind, update_generator at 1.
    by rewrite IH.
Qed.

Lemma lookup_foldl_alter {A} (f : A → A) (l : list Z) : ∀ (m : gmap Z A) k,
  (∀ x, f (f x) = f x) →
  foldl (fun m k => alter f k m) m l !! k
  = if decide (k ∈ l) then f <$> m !! k else m !! k.
Proof.
  induction l as [|a l IH]; intros m k Hf.
  - by rewrite decide_False by apply not_elem_of_nil.
  - cbn [foldl]. rewrite IH by done.
    destruct (decide (k = a)) as [->|Hne].
    + rewrite lookup_alter_eq, (decide_True (P := a ∈ a :: l)) by constructor.
      destruct (decide (a ∈ l)); [|done].
      destruct (m !! a); simpl; by rewrite ?Hf.
    + rewrite lookup_alter_ne by done.
      destruct (decide (k ∈ l)) as [Hin|Hnin].
      * by rewrite decide_True by by constructor.
      * rewrite decide_False; [done|].
        by intros [?|?]%elem_of_cons.
Qed.

Lemma set_is_active_idemp b g :
  EventGenerator.set_is_active b (EventGenerator.set_is_active b g)
  = EventGenerator.set_is_active b g.
Proof. reflexivity. Qed.

(** The objects the query returns are the rows of the pool that are
    enabled. *)
Lemma elem_of_enabled_generators_of pool w k :
  k ∈ enabled_generators_of pool w
  ↔ ∃ g, generators w !! k = Some g ∧ is_enabled_member pool g = true.
Proof.
  unfold enabled_generators_of. rewrite list_elem_of_fmap. split.
  - intros ([k' g] & -> & [Hm Hin]%list_elem_of_filter).
    apply elem_of_map_to_list in Hin. by exists g.
  - intros (g & Hg & Hm). exists (k, g). split; [done|].
    apply list_elem_of_filter. split; [done|].
    by apply elem_of_map_to_list.
Qed.

Lemma is_enabled_member_enabled pool g :
  is_enabled_member pool g = true → EventGenerator.enabled g = true.
Proof.
  unfold is_enabled_member. destruct (EventGenerator.pool_id g); [|done].
  by intros [_ ?]%andb_true_iff.
Qed.

(** [random.choice] raises without touching anything, or returns one of
    the elements. *)
Lemma random_choice_cases {A} (seq : list A) w :
  random_choice seq w = Throw IndexError w
  ∨ ∃ x, x ∈ seq ∧ random_choice seq w = Return x (with_draws (S (draws w)) w).
Proof.
  unfold random_choice.
  destruct (seq !! (rand w (draws w) mod length seq)%nat) as [x|] eqn:Hx.
  - right. exists x. split; [|done]. by eapply list_elem_of_lookup_2.
  - by left.
Qed.

Lemma random_choice_nonempty {A} (seq : list A) w :
  seq ≠ [] →
  ∃ x, x ∈ seq ∧ random_choice seq w = Return x (with_draws (S (draws w)) w).
Proof.
  intros Hne. destruct (random_choice_cases seq w) as [H|H]; [|done].
  exfalso. unfold random_choice in H.
  destruct (lookup_lt_is_Some_2 seq (rand w (draws w) mod length seq)%nat)
    as [x Hx].
  - apply Nat.mod_upper_bound. by destruct seq.
  - by rewrite Hx in H.
Qed.

(** The two loops of [run], from a world [w], on a key outside the first
    list and outside the second. *)
Lemma pool_loops_frame (enabled prepared : list Z) w k :
  k ∉ enabled → k ∉ prepared →
  generators
    (world_of
       ((for_each enabled
           (fun gen => update_generator gen (EventGenerator.set_is_active false)) ;;;
         for_each prepared
           (fun gen => update_generator gen (EventGenerator.set_is_active true)))
          w)) !! k
  = generators w !! k.
Proof.
  intros He Hp. erewrite bind_Return by apply for_each_update.
  rewrite for_each_update. cbn [world_of generators with_generators].
  rewrite !lookup_foldl_alter by apply set_is_active_idemp.
  by rewrite !decide_False.
Qed.

(** **** C10 — a run of a pool leaves every disabled generator exactly as
    it was, its [is_active] included, whatever the scheme, the random draw
    and the way the run ends. *)
Theorem pool_run_keeps_disabled (w : World) (self gid : Z)
    (g : EventGenerator.t) :
  generators w !! gid = Some g →
  EventGenerator.enabled g = false →
  generators (world_of (EventGeneratorPool_run self w)) !! gid = Some g.
Proof.
  intros Hg Hdis.
  assert (gid ∉ enabled_generators_of self w) as Hout.
  { intros (g' & Hg' & Hm)%elem_of_enabled_generators_of.
    apply is_enabled_member_enabled in Hm. congruence. }
  unfold EventGeneratorPool_run.
  erewrite bind_Return by reflexivity.
  unfold bind at 1, the_pool at 1.
  destruct (pools w !! self) as [p|]; [|exact Hg].
  destruct (py_is (EventGeneratorPool.run_scheme p) LIT_any).
  - unfold bind at 1 2.
    destruct (random_choice_cases (enabled_generators_of self w) w)
      as [->|(x & Hx & ->)]; [exact Hg|].
    unfold ret at 1. rewrite pool_loops_frame; [exact Hg|exact Hout|].
    intros ->%list_elem_of_singleton. contradiction.
  - destruct (py_is (EventGeneratorPool.run_scheme p) LIT_all).
    + erewrite bind_Return by reflexivity.
      by rewrite pool_loops_frame.
    + erewrite bind_Return by reflexivity.
      rewrite pool_loops_frame; [exact Hg|exact Hout|apply not_elem_of_nil].
Qed.

Lemma pool_run_keeps_disabled_witness :
  generators (world_of (EventGeneratorPool_run 1 (sample_world LIT_any 1))) !! 4
  = Some (sample_generator 4 (Some 1) true false).
Proof.
  exact (pool_run_keeps_disabled (sample_world LIT_any 1) 1 4
           (sample_generator 4 (Some 1) true false) eq_refl eq_refl).
Defined.

(** The run writes generators only: the table of pools, and with it the
    pool's own [last_run_at] and [total_run_count], is as before. *)
Lemma pool_run_keeps_pools self : keeps pools (EventGeneratorPool_run self).
Proof.
  unfold EventGeneratorPool_run, query_enabled_generators, the_pool.
  repeat keeps_step; try (by intros w).
  - intros w. by destruct (pools w !! self).
  - intros w. unfold random_choice. by destruct (_ !! _).
Qed.

(** **** C7 — a run of pool 1, whose scheme is the literal ['any'] itself:
    the run returns, and the pool still has no [last_run_at] and a
    [total_run_count] of 0. *)
Theorem pool_run_leaves_counters :
  let w := sample_world LIT_any 0 in
  let o := EventGeneratorPool_run 1 w in
  value_of o = Some tt
  ∧ EventGeneratorPool.total_run_count <$> pools w !! 1 = Some 0
  ∧ EventGeneratorPool.total_run_count <$> pools (world_of o) !! 1 = Some 0
  ∧ EventGeneratorPool.last_run_at <$> pools (world_of o) !! 1 = Some None.
Proof.
  cbv zeta. rewrite pool_run_keeps_pools. repeat split.
Qed.

(** With the scheme the very object of the literal and at least one
    enabled member, the run does select one: it is active afterwards and
    the other enabled members are not. *)
Lemma pool_run_any_identical w self p :
  pools w !! self = Some p →
  py_is (EventGeneratorPool.run_scheme p) LIT_any = true →
  enabled_generators_of self w ≠ [] →
  ∃ g w',
    EventGeneratorPool_run self w = Return tt w'
    ∧ g ∈ enabled_generators_of self w
    ∧ ∀ k, k ∈ enabled_generators_of self w →
           EventGenerator.is_active <$> generators w' !! k
           = Some (bool_decide (k = g)).
Proof.
  intros Hp His Hne.
  destruct (random_choice_nonempty (enabled_generators_of self w) w Hne)
    as (g & Hg & Hchoice).
  exists g. eexists. split; [|split; [exact Hg|]].
  - unfold EventGeneratorPool_run.
    erewrite bind_Return by reflexivity.
    erewrite bind_Return by (unfold the_pool; rewrite Hp; reflexivity).
    rewrite His.
    erewrite bind_Return
      by (erewrite bind_Return by exact Hchoice; reflexivity).
    erewrite bind_Return by apply for_each_update.
    apply for_each_update.
  - intros k Hin.
    pose proof Hin as (gk & Hk & _)%elem_of_enabled_generators_of.
    cbn [generators with_generators with_draws foldl].
    destruct (decide (k = g)) as [->|Hkg].
    + rewrite bool_decide_eq_true_2 by done.
      rewrite lookup_alter_eq.
      rewrite lookup_foldl_alter by apply set_is_active_idemp.
      rewrite decide_True by done. by rewrite Hk.
    + rewrite bool_decide_eq_false_2 by done.
      rewrite lookup_alter_ne by done.
      rewrite lookup_foldl_alter by apply set_is_active_idemp.
      rewrite decide_True by done.
      by rewrite Hk.
Qed.

(** With a scheme that is neither of the two literal objects, every
    enabled member ends inactive. *)
Lemma pool_run_other_object w self p :
  pools w !! self = Some p →
  py_is (EventGeneratorPool.run_scheme p) LIT_any = false →
  py_is (EventGeneratorPool.run_scheme p) LIT_all = false →
  ∃ w',
    EventGeneratorPool_run self w = Return tt w'
    ∧ ∀ k, k ∈ enabled_generators_of self w →
           EventGenerator.is_active <$> generators w' !! k = Some false.
Proof.
  intros Hp Hany Hall. eexists. split.
  - unfold EventGeneratorPool_run.
    erewrite bind_Return by reflexivity.
    erewrite bind_Return by (unfold the_pool; rewrite Hp; reflexivity).
    rewrite Hany, Hall.
    erewrite bind_Return by reflexivity.
    erewrite bind_Return by apply for_each_update.
    apply for_each_update.
  - intros k Hin. pose proof Hin as (gk & Hk & _)%elem_of_enabled_generators_of.
    cbn [generators with_generators foldl].
    rewrite lookup_foldl_alter by apply set_is_active_idemp.
    rewrite decide_True by done. by rewrite Hk.
Qed.


(** *** More on splitting: the pieces of any text *)

Lemma wf_field_no_space f : wf_field f = true ↔ f ≠ [] ∧ no_space f = true.
Proof.
  destruct f; simpl.
  - split; [discriminate|by intros [? _]].
  - split; [by intros ?|by intros [_ ?]].
Qed.

Lemma no_space_app f g : no_space (f ++ g) = no_space f && no_space g.
Proof. apply forallb_app. Qed.

Lemma tail_ok_cons x rest :
  no_space x = true → tail_ok rest = true → (x ≠ [] ∨ rest = []) →
  tail_ok (x :: rest) = true.
Proof.
  intros Hx Hr Hne. destruct rest as [|y rest]; [done|].
  destruct Hne as [Hne|?]; [|done].
  change (wf_field x && tail_ok (y :: rest) = true).
  rewrite Hr, andb_true_r. by apply wf_field_no_space.
Qed.

Lemma tail_ok_inv g fs :
  tail_ok (g :: fs) = true →
  no_space g = true ∧ tail_ok fs = true ∧ (g ≠ [] ∨ fs = []).
Proof.
  intros H. destruct fs as [|h fs]; [by repeat split; auto|].
  change (wf_field g && tail_ok (h :: fs) = true) in H.
  apply andb_true_iff in H as [Hg Hr].
  apply wf_field_no_space in Hg as [? ?]. auto.
Qed.

(** The first piece of a split is free of white space and so is each of
    the others; only the first and the last piece can be empty. *)
Lemma split_from_shape s :
  (∀ p, no_space p = true →
        ∃ x rest, split_from false p s = x :: rest
                  ∧ no_space x = true ∧ (p ≠ [] → x ≠ [])
                  ∧ tail_ok rest = true)
  ∧ tail_ok (split_from true [] s) = true.
Proof.
  induction s as [|c s [IHf IHt]].
  - split; [|done]. intros p Hp. by exists p, [].
  - assert (∀ p, no_space p = true → isspace c = false →
              ∃ x rest, split_from false (p ++ [c]) s = x :: rest
                        ∧ no_space x = true ∧ x ≠ []
                        ∧ tail_ok rest = true) as Hstep.
    { intros p Hp Hc.
      destruct (IHf (p ++ [c])) as (x & rest & Hs & Hx & Hne & Hr).
      - rewrite no_space_app, Hp. simpl. by rewrite Hc.
      - exists x, rest. repeat split; try done. apply Hne. by destruct p. }
    split.
    + intros p Hp. cbn [split_from]. destruct (isspace c) eqn:Hc.
      * by exists p, (split_from true [] s).
      * destruct (Hstep p Hp eq_refl) as (x & rest & ? & ? & ? & ?).
        by exists x, rest.
    + cbn [split_from]. destruct (isspace c) eqn:Hc; [done|].
      destruct (Hstep [] eq_refl eq_refl) as (x & rest & -> & ? & ? & ?).
      apply tail_ok_cons; auto.
Qed.

Lemma split_from_no_space b p f :
  no_space f = true → split_from b p f = [p ++ f].
Proof.
  intros Hf. destruct f as [|c f].
  - by rewrite app_nil_r.
  - cbn in Hf. apply andb_true_iff in Hf as [Hc Hf].
    apply negb_true_iff in Hc.
    rewrite split_from_nonspace by done.
    rewrite <- (app_nil_r f) at 1. rewrite split_from_run by done.
    by rewrite <- app_assoc.
Qed.

(** Joining such pieces with single spaces and splitting again gives the
    pieces back. *)
Lemma split_from_join_pieces fs : ∀ b p f,
  no_space f = true → tail_ok fs = true →
  (b = false ∨ f ≠ [] ∨ fs = []) →
  split_from b p (str_join [SP] (f :: fs)) = (p ++ f) :: fs.
Proof.
  induction fs as [|g fs IH]; intros b p f Hf Hfs Hb.
  - by apply split_from_no_space.
  - apply tail_ok_inv in Hfs as (Hg & Hfs & Hgne).
    rewrite str_join_cons2.
    assert (split_from b p (f ++ [SP] ++ str_join [SP] (g :: fs))
            = (p ++ f) :: split_from true [] (str_join [SP] (g :: fs))) as ->.
    { destruct f as [|c f].
      - destruct Hb as [->|[?|?]]; [|done..]. by rewrite app_nil_r.
      - rewrite split_from_field by by apply wf_field_no_space.
        reflexivity. }
    f_equal. rewrite IH; [done|done|done|]. destruct Hgne; auto.
Qed.

Lemma re_split_ws_join_split s :
  re_split_ws (str_join [SP] (re_split_ws s)) = re_split_ws s.
Proof.
  unfold re_split_ws at 2 3.
  destruct (proj1 (split_from_shape s) [] eq_refl)
    as (x & rest & -> & Hx & _ & Hr).
  unfold re_split_ws. rewrite split_from_join_pieces; auto.
Qed.

Lemma re_split_ws_no_space s : forallb no_space (re_split_ws s) = true.
Proof.
  unfold re_split_ws.
  destruct (proj1 (split_from_shape s) [] eq_refl)
    as (x & rest & -> & Hx & _ & Hr).
  simpl. rewrite Hx. simpl. clear -Hr.
  induction rest as [|g rest IH]; [done|].
  apply tail_ok_inv in Hr as (Hg & Hr & _). simpl. by rewrite Hg, IH.
Qed.

(** The schedule built from five values: the keys in their order, each
    with its value. *)
Lemma of_pairs_zip_keys (vs : list pystr) :
  length vs = 5%nat →
  Dict.of_pairs (CrontabType.zip CrontabType.keys vs)
  = List.combine CrontabType.keys vs
  ∧ Dict.values (Dict.of_pairs (CrontabType.zip CrontabType.keys vs)) = vs.
Proof.
  intros Hlen.
  destruct vs as [|v0 [|v1 [|v2 [|v3 [|v4 [|]]]]]]; try discriminate Hlen.
  by split.
Qed.

Lemma parse_accepted s :
  length (re_split_ws s) = 5%nat →
  CrontabType.parse s
  = Ok (Some (Dict.of_pairs (CrontabType.zip CrontabType.keys (re_split_ws s)))).
Proof.
  intros Hlen. unfold CrontabType.parse, CrontabType.process_bind_param.
  cbv zeta. by rewrite Hlen.
Qed.

(** **** X1 — [parse] refuses a text exactly when its fields, plus one if
    it ends with white space, plus one if it is empty or starts with white
    space, do not add up to five; every other text is accepted. *)
Theorem parse_refuses_exactly (s : pystr) :
  let pieces := (spec_field_count s
                 + (if final_space false s then 1 else 0)
                 + (if leading_space s then 1 else 0))%nat in
  (CrontabType.parse s = Raise ValueError ↔ pieces ≠ 5%nat)
  ∧ ((∃ d, CrontabType.parse s = Ok (Some d)) ↔ pieces = 5%nat).
Proof.
  cbv zeta. rewrite <- pieces_and_fields. split.
  - apply parse_raises_iff.
  - split.
    + intros [d Hd].
      destruct (decide (length (re_split_ws s) = 5%nat)) as [|Hne]; [done|].
      apply parse_raises_iff in Hne. congruence.
    + intros Hlen. eexists. by apply parse_accepted.
Qed.

(** **** X2 — a text that [parse] accepts is formatted back as its pieces
    joined by single spaces (each run of white space becomes one space),
    and parsing that text again gives the same schedule. *)
Theorem format_parse_normalises (s : pystr) :
  length (re_split_ws s) = 5%nat →
  CrontabType.format_parsed s = Ok (Some (str_join [SP] (re_split_ws s)))
  ∧ CrontabType.parse (str_join [SP] (re_split_ws s)) = CrontabType.parse s
  ∧ CrontabType.format_parsed (str_join [SP] (re_split_ws s))
    = CrontabType.format_parsed s.
Proof.
  intros Hlen.
  assert (CrontabType.parse (str_join [SP] (re_split_ws s))
          = CrontabType.parse s) as Hparse.
  { rewrite !parse_accepted by by rewrite ?re_split_ws_join_split.
    by rewrite re_split_ws_join_split. }
  split; [|split; [exact Hparse|]].
  - unfold CrontabType.format_parsed. rewrite parse_accepted by done.
    unfold CrontabType.process_result_value. cbv zeta.
    destruct (of_pairs_zip_keys (re_split_ws s) Hlen) as [_ ->].
    by rewrite Hlen.
  - unfold CrontabType.format_parsed. by rewrite Hparse.
Qed.

Lemma format_parse_normalises_witness :
  CrontabType.format_parsed (str_of "0   12  * */2    mon")
  = Ok (Some (str_of "0 12 * */2 mon"))
  ∧ CrontabType.parse (str_of "0 12 * */2 mon")
    = CrontabType.parse (str_of "0   12  * */2    mon")
  ∧ CrontabType.format_parsed (str_of "0 12 * */2 mon")
    = CrontabType.format_parsed (str_of "0   12  * */2    mon").
Proof.
  exact (format_parse_normalises (str_of "0   12  * */2    mon") eq_refl).
Defined.

(** **** X3 — the schedule of an accepted text has exactly the five keys
    of [keys], in that order, its values are the pieces of the text in the
    order of the text, and no value holds white space. *)
Theorem parsed_schedule_shape (s : pystr) (d : Dict.t pystr) :
  CrontabType.parse s = Ok (Some d) →
  List.map fst d = CrontabType.keys
  ∧ Dict.values d = re_split_ws s
  ∧ forallb no_space (Dict.values d) = true.
Proof.
  intros Hd.
  destruct (decide (length (re_split_ws s) = 5%nat)) as [Hlen|Hne].
  - rewrite parse_accepted in Hd by done.
    assert (d = Dict.of_pairs
                  (CrontabType.zip CrontabType.keys (re_split_ws s))) as ->
      by congruence.
    destruct (of_pairs_zip_keys (re_split_ws s) Hlen) as [Hzip Hvals].
    rewrite Hvals. split; [|split; [done|apply re_split_ws_no_space]].
    rewrite Hzip. clear -Hlen.
    destruct (re_split_ws s) as [|v0 [|v1 [|v2 [|v3 [|v4 [|]]]]]];
      by try discriminate Hlen.
  - apply parse_raises_iff in Hne. congruence.
Qed.

Lemma parsed_schedule_shape_witness :
  let d := [("minute", str_of "0"); ("hour", str_of "12");
            ("day_of_week", str_of "*"); ("day_of_month", str_of "*/2");
            ("month_of_year", str_of "mon")]%string in
  List.map fst d = CrontabType.keys
  ∧ Dict.values d = re_split_ws (str_of "0   12  * */2    mon")
  ∧ forallb no_space (Dict.values d) = true.
Proof.
  exact (parsed_schedule_shape (str_of "0   12  * */2    mon") _ eq_refl).
Defined.

(** **** X4 — the other way round: a schedule of five well-formed values
    is formatted, and parsing the text gives the same five values under
    the keys of [keys], whatever the keys of the schedule were; a schedule
    that has these keys in this order comes back unchanged. *)
Theorem parse_format_schedule (d : Dict.t pystr) :
  length d = 5%nat → forallb wf_field (Dict.values d) = true →
  ∃ text,
    CrontabType.process_result_value (Some d) = Ok (Some text)
    ∧ CrontabType.process_bind_param (Some text)
      = Ok (Some (List.combine CrontabType.keys (Dict.values d)))
    ∧ (List.map fst d = CrontabType.keys →
       CrontabType.process_bind_param (Some text) = Ok (Some d)).
Proof.
  intros Hlen Hwf.
  assert (length (Dict.values d) = 5%nat) as Hvals
    by (unfold Dict.values; by rewrite length_map).
  exists (str_join [SP] (Dict.values d)).
  assert (re_split_ws (str_join [SP] (Dict.values d)) = Dict.values d) as Hsplit.
  { destruct (Dict.values d) as [|v vs]; [discriminate Hvals|].
    by apply re_split_ws_join. }
  assert (CrontabType.process_bind_param (Some (str_join [SP] (Dict.values d)))
          = Ok (Some (List.combine CrontabType.keys (Dict.values d)))) as Hbind.
  { fold (CrontabType.parse (str_join [SP] (Dict.values d))).
    rewrite parse_accepted by by rewrite Hsplit.
    rewrite Hsplit. by destruct (of_pairs_zip_keys _ Hvals) as [-> _]. }
  split; [|split; [exact Hbind|]].
  - unfold CrontabType.process_result_value. cbv zeta. by rewrite Hvals.
  - intros Hkeys. rewrite Hbind. do 2 f_equal.
    rewrite <- Hkeys. unfold Dict.values. clear.
    induction d as [|[k v] d IH]; [done|]. simpl. by rewrite IH.
Qed.

Lemma parse_format_schedule_witness :
  let d := [("m", str_of "0"); ("h", str_of "12"); ("dow", str_of "*");
            ("dom", str_of "*/2"); ("moy", str_of "mon")]%string in
  ∃ text,
    CrontabType.process_result_value (Some d) = Ok (Some text)
    ∧ CrontabType.process_bind_param (Some text)
      = Ok (Some (List.combine CrontabType.keys (Dict.values d)))
    ∧ (List.map fst d = CrontabType.keys →
       CrontabType.process_bind_param (Some text) = Ok (Some d)).
Proof.
  exact (parse_format_schedule
           [("m", str_of "0"); ("h", str_of "12"); ("dow", str_of "*");
            ("dom", str_of "*/2"); ("moy", str_of "mon")]%string
           eq_refl eq_refl).
Defined.

(** *** More on [Event] *)

(** **** X5 — [Event.active] never answers [True]: it raises [TypeError]
    exactly when [finish_at] is after the current time, and answers
    [False] otherwise, whatever [is_active] and [start_at] are. *)
Theorem Event_active_outcomes (self : Event.t) (w : World) :
  value_of (Event_active self w) ≠ Some true
  ∧ (Event_active self w = Throw TypeError (with_ticks (S (ticks w)) w)
     ↔ clock w (ticks w) < Event.finish_at self)
  ∧ (Event_active self w = Return false (with_ticks (S (ticks w)) w)
     ↔ Event.finish_at self <= clock w (ticks w)).
Proof.
  rewrite Event_active_cases.
  destruct (Z.gtb_spec (Event.finish_at self) (clock w (ticks w)));
    repeat split; try done; try lia.
Qed.

Lemma timedelta_bool_sub a b :
  timedelta_bool (datetime_sub a b) = negb (a =? b).
Proof.
  unfold datetime_sub. rewrite timedelta_of_us_zero. f_equal.
  destruct (Z.eqb_spec (a - b) 0), (Z.eqb_spec a b); lia.
Qed.

(** The first half of the [before_insert] listener, about [start_at],
    under a clock that stands at [t], followed by any continuation. *)
Lemma start_half_frozen_spec {B} target w t (k : Event.t → M B) :
  clock w = frozen t →
  ∃ w1,
    bind (Event_start_in target)
      (fun d =>
         bind (if truthy d then
                 d' <- Event_start_in target ;;
                 countdown <- attr_seconds d' ;;
                 task <- apply_async ON_EVENT_START (Event.id target) countdown ;;
                 ret (Event.set_on_start_task_id (Some task) target)
               else ret target) k) w
    = k (if t <? Event.start_at target
         then Event.set_on_start_task_id (Some (next_uuid w)) target
         else target) w1
    ∧ clock w1 = clock w
    ∧ revoked w1 = revoked w
    ∧ sent w1
      = (if t <? Event.start_at target
         then [mkTask (next_uuid w) ON_EVENT_START (Event.id target)
                 (seconds (datetime_sub (Event.start_at target) t))]
         else []) ++ sent w
    ∧ next_uuid w1
      = (if t <? Event.start_at target then next_uuid w + 1 else next_uuid w).
Proof.
  intros Hc.
  pose proof (Event_start_in_frozen_cases target w t Hc) as H1.
  pose proof (Event_start_in_frozen_cases target
                (with_ticks (S (S (ticks w))) w) t Hc) as H2.
  pose proof (timedelta_bool_sub (Event.start_at target) t) as Hb.
  destruct (Z.ltb_spec t (Event.start_at target)) as [Hlt|Hge].
  - destruct (Z.geb_spec (Event.start_at target) t); [|lia].
    destruct (Z.eqb_spec (Event.start_at target) t); [lia|].
    eexists. split.
    { erewrite bind_Return by exact H1. cbn [truthy]. rewrite Hb. cbn [negb].
      erewrite bind_Return; [reflexivity|].
      erewrite bind_Return by exact H2. reflexivity. }
    by repeat split.
  - destruct (Z.geb_spec (Event.start_at target) t).
    + destruct (Z.eqb_spec (Event.start_at target) t); [|lia].
      eexists. split.
      { erewrite bind_Return by exact H1. cbn [truthy]. rewrite Hb. cbn [negb].
        erewrite bind_Return; reflexivity. }
      by repeat split.
    + eexists. split.
      { erewrite bind_Return by exact H1. cbn [truthy].
        erewrite bind_Return; reflexivity. }
      by repeat split.
Qed.

(** The second half, about [finish_at]. *)
Lemma finish_half_frozen_spec target w t :
  clock w = frozen t →
  ∃ w1,
    (d <- Event_finish_in target ;;
     if truthy d then
       d' <- Event_finish_in target ;;
       countdown <- attr_seconds d' ;;
       task <- apply_async ON_EVENT_FINISH (Event.id target) countdown ;;
       ret (Event.set_on_finish_task_id (Some task) target)
     else ret target) w
    = Return (if t <? Event.finish_at target
              then Event.set_on_finish_task_id (Some (next_uuid w)) target
              else target) w1
    ∧ clock w1 = clock w
    ∧ revoked w1 = revoked w
    ∧ sent w1
      = (if t <? Event.finish_at target
         then [mkTask (next_uuid w) ON_EVENT_FINISH (Event.id target)
                 (seconds (datetime_sub (Event.finish_at target) t))]
         else []) ++ sent w.
Proof.
  intros Hc.
  pose proof (Event_finish_in_frozen target w t Hc) as H1.
  pose proof (Event_finish_in_frozen target
                (with_ticks (S (S (ticks w))) w) t Hc) as H2.
  pose proof (timedelta_bool_sub (Event.finish_at target) t) as Hb.
  destruct (Z.ltb_spec t (Event.finish_at target)) as [Hlt|Hge].
  - destruct (Z.geb_spec (Event.finish_at target) t); [|lia].
    destruct (Z.eqb_spec (Event.finish_at target) t); [lia|].
    eexists. split.
    { erewrite bind_Return by exact H1. cbn [truthy]. rewrite Hb. cbn [negb].
      erewrite bind_Return by exact H2. reflexivity. }
    by repeat split.
  - destruct (Z.geb_spec (Event.finish_at target) t).
    + destruct (Z.eqb_spec (Event.finish_at target) t); [|lia].
      eexists. split.
      { erewrite bind_Return by exact H1. cbn [truthy]. rewrite Hb. reflexivity. }
      by repeat split.
    + eexists. split.
      { erewrite bind_Return by exact H1. reflexivity. }
      by repeat split.
Qed.

(** **** X6 — what the [before_insert] listener does under a clock that
    stands at [t]: it publishes a start task exactly when the event is
    active and [start_at] is strictly after [t], a finish task exactly
    when it is active and [finish_at] is strictly after [t], each with
    the [seconds] field of the difference as countdown; the ids of the
    tasks it publishes go to the two task id fields, the others are kept;
    nothing is revoked. An event that starts exactly at [t] gets no start
    task. *)
Theorem on_event_create_frozen_clock (target : Event.t) (w : World) (t : datetime) :
  clock w = frozen t →
  let s := Event.is_active target && (t <? Event.start_at target) in
  let f := Event.is_active target && (t <? Event.finish_at target) in
  let n := next_uuid w in
  let nf := if s then n + 1 else n in
  ∃ e w',
    on_event_create target w = Return e w'
    ∧ Event.without_task_ids e = Event.without_task_ids target
    ∧ Event.on_start_task_id e
      = (if s then Some n else Event.on_start_task_id target)
    ∧ Event.on_finish_task_id e
      = (if f then Some nf else Event.on_finish_task_id target)
    ∧ sent w'
      = (if f then [mkTask nf ON_EVENT_FINISH (Event.id target)
                      (seconds (datetime_sub (Event.finish_at target) t))]
         else [])
        ++ (if s then [mkTask n ON_EVENT_START (Event.id target)
                         (seconds (datetime_sub (Event.start_at target) t))]
            else [])
        ++ sent w
    ∧ revoked w' = revoked w.
Proof.
  intros Hc. cbv zeta. unfold on_event_create.
  destruct (Event.is_active target); cbn [negb andb].
  - match goal with
    | |- context [bind (Event_start_in target) (fun d => bind _ ?k)] =>
        destruct (start_half_frozen_spec target w t k Hc)
          as (w1 & -> & Hc1 & Hr1 & Hs1 & Hn1)
    end.
    rewrite Hc in Hc1.
    match goal with
    | |- context [bind (Event_finish_in ?tg) _ w1] =>
        destruct (finish_half_frozen_spec tg w1 t Hc1)
          as (w2 & -> & Hc2 & Hr2 & Hs2)
    end.
    eexists _, _. split; [reflexivity|].
    rewrite Hs2, Hs1, Hr2, Hr1, Hn1.
    destruct (t <? Event.start_at target);
      cbn [Event.finish_at Event.id Event.set_on_start_task_id];
      destruct (t <? Event.finish_at target); by repeat split.
  - eexists _, _. by repeat split.
Qed.

Lemma on_event_create_frozen_clock_witness :
  let target := sample_event true 5 7000005 (Some 40) None in
  ∃ e w',
    on_event_create target (empty_world (frozen 5)) = Return e w'
    ∧ Event.without_task_ids e = Event.without_task_ids target
    ∧ Event.on_start_task_id e = Some 40
    ∧ Event.on_finish_task_id e = Some 0
    ∧ sent w' = [mkTask 0 ON_EVENT_FINISH (Some 1) 7]
    ∧ revoked w' = [].
Proof.
  exact (on_event_create_frozen_clock
           (sample_event true 5 7000005 (Some 40) None)
           (empty_world (frozen 5)) 5 eq_refl).
Defined.

(** **** X7 — when an active event starts within less than a day of a
    clock that stands at [t], the start task is published with the delay
    in whole seconds, rounded down: it fires less than one second before
    [start_at] at the earliest, and its id is the event's
    [on_start_task_id]. *)
Theorem start_countdown_within_a_day (target : Event.t) (w : World) (t : datetime) :
  clock w = frozen t → Event.is_active target = true →
  t < Event.start_at target < t + US_PER_DAY →
  ∃ e w' c,
    on_event_create target w = Return e w'
    ∧ Event.on_start_task_id e = Some (next_uuid w)
    ∧ mkTask (next_uuid w) ON_EVENT_START (Event.id target) c ∈ sent w'
    ∧ c * US_PER_SECOND <= Event.start_at target - t < (c + 1) * US_PER_SECOND.
Proof.
  intros Hc Ha [Hlo Hhi].
  destruct (on_event_create_start_countdown target w t Hc Ha Hlo)
    as (e & w' & Hrun & He & Hin).
  exists e, w', ((Event.start_at target - t) / US_PER_SECOND).
  split; [exact Hrun|]. split; [exact He|]. split.
  - unfold datetime_sub in Hin. by rewrite seconds_below_a_day in Hin by lia.
  - pose proof (Z.div_mod (Event.start_at target - t) US_PER_SECOND
                  ltac:(done)) as Hdm.
    pose proof (Z.mod_pos_bound (Event.start_at target - t) US_PER_SECOND
                  ltac:(done)) as Hmod.
    lia.
Qed.

Lemma start_countdown_within_a_day_witness :
  ∃ e w' c,
    on_event_create (sample_event true 2500005 9000005 None None)
                    (empty_world (frozen 5)) = Return e w'
    ∧ Event.on_start_task_id e = Some 0
    ∧ mkTask 0 ON_EVENT_START (Some 1) c ∈ sent w'
    ∧ c * US_PER_SECOND <= 2500005 - 5 < (c + 1) * US_PER_SECOND.
Proof.
  exact (start_countdown_within_a_day
           (sample_event true 2500005 9000005 None None)
           (empty_world (frozen 5)) 5 eq_refl eq_refl
           (conj eq_refl eq_refl)).
Defined.

Lemma bind_Throw {A B} (c : M A) (k : A → M B) w e w' :
  c w = Throw e w' → bind c k w = Throw e w'.
Proof. intros H. unfold bind. by rewrite H. Qed.

(** [start_in] reads the clock once for its test and once more for the
    difference. *)
Lemma Event_start_in_reads self w :
  Event_start_in self w
  = if Event.start_at self >=? clock w (ticks w)
    then Return (Some (datetime_sub (Event.start_at self)
                         (clock w (S (ticks w)))))
                (with_ticks (S (S (ticks w))) w)
    else Return None (with_ticks (S (ticks w)) w).
Proof.
  unfold Event_start_in, bind, now.
  by destruct (Event.start_at self >=? clock w (ticks w)).
Qed.

(** **** X8 — the listener reads [start_in] twice, once to test it and once
    to take its [seconds]. When the clock passes [start_at] between the
    two (the first reading of the clock is not after [start_at], the
    second differs from it, the third is after it), the second [start_in]
    is [None] and the listener raises [AttributeError], having published
    nothing. *)
Theorem on_event_create_clock_passes_start (target : Event.t) (w : World) :
  Event.is_active target = true →
  clock w (ticks w) <= Event.start_at target →
  clock w (S (ticks w)) ≠ Event.start_at target →
  Event.start_at target < clock w (S (S (ticks w))) →
  on_event_create target w
  = Throw AttributeError (with_ticks (S (S (S (ticks w)))) w).
Proof.
  intros Ha H0 H1 H2. unfold on_event_create. rewrite Ha. cbn [negb].
  pose proof (Event_start_in_reads target w) as R1.
  pose proof (Event_start_in_reads target (with_ticks (S (S (ticks w))) w)) as R2.
  cbn [clock ticks with_ticks] in R2.
  destruct (Z.geb_spec (Event.start_at target) (clock w (ticks w))); [|lia].
  destruct (Z.geb_spec (Event.start_at target) (clock w (S (S (ticks w)))));
    [lia|].
  erewrite bind_Return by exact R1. cbn [truthy].
  rewrite timedelta_bool_sub.
  destruct (Z.eqb_spec (Event.start_at target) (clock w (S (ticks w))));
    [congruence|]. cbn [negb].
  apply bind_Throw. erewrite bind_Return by exact R2. reflexivity.
Qed.

Lemma on_event_create_clock_passes_start_witness :
  let clk := fun n => match n with 0%nat => 0 | 1%nat => 1 | _ => 20 end in
  on_event_create (sample_event true 10 30 None None) (empty_world clk)
  = Throw AttributeError (with_ticks 3 (empty_world clk)).
Proof.
  cbv zeta.
  refine (on_event_create_clock_passes_start
            (sample_event true 10 30 None None)
            (empty_world
               (fun n => match n with 0%nat => 0 | 1%nat => 1 | _ => 20 end))
            eq_refl _ _ eq_refl); vm_compute; discriminate.
Defined.





(** **** X11 — under a clock that stands at [t], [start_in] is a
    [timedelta] exactly when [started] answers [True], and it is then the
    whole difference [start_at - t], which is not negative; [finish_in] is
    [None] exactly when [finished] answers [True]; and an event that does
    not finish before it starts is not [started] once it is
    [finished]. *)
Theorem start_in_and_started (self : Event.t) (w : World) (t : datetime) :
  clock w = frozen t →
  ∃ started finished,
    value_of (Event_started self w) = Some started
    ∧ value_of (Event_finished self w) = Some finished
    ∧ (if started
       then ∃ d, value_of (Event_start_in self w) = Some (Some d)
                 ∧ total_us d = Event.start_at self - t ∧ 0 <= days d
       else value_of (Event_start_in self w) = Some None)
    ∧ (finished = true ↔ value_of (Event_finish_in self w) = Some None)
    ∧ (Event.start_at self <= Event.finish_at self →
       finished = true → started = false).
Proof.
  intros Hc.
  exists (Event.start_at self >=? t), (Event.finish_at self <? t).
  split; [|split; [|split; [|split]]].
  - unfold Event_started, bind, now. cbn. by rewrite Hc.
  - unfold Event_finished, bind, now. cbn. by rewrite Hc.
  - rewrite (Event_start_in_frozen_cases self w t Hc).
    destruct (Z.geb_spec (Event.start_at self) t); [|done].
    eexists. split; [reflexivity|]. unfold datetime_sub.
    split; [apply total_us_of_us|].
    unfold timedelta_of_us. cbn [days]. apply Z.div_pos; [lia|done].
  - rewrite (Event_finish_in_frozen self w t Hc).
    destruct (Z.geb_spec (Event.finish_at self) t),
             (Z.ltb_spec (Event.finish_at self) t);
      try lia; split; by intros ?.
  - intros Hle Hfin.
    destruct (Z.geb_spec (Event.start_at self) t),
             (Z.ltb_spec (Event.finish_at self) t); try done; lia.
Qed.

Lemma start_in_and_started_witness :
  let self := sample_event true 2500005 9000005 None None in
  let w := empty_world (frozen 5) in
  ∃ started finished,
    value_of (Event_started self w) = Some started
    ∧ value_of (Event_finished self w) = Some finished
    ∧ (if started
       then ∃ d, value_of (Event_start_in self w) = Some (Some d)
                 ∧ total_us d = Event.start_at self - 5 ∧ 0 <= days d
       else value_of (Event_start_in self w) = Some None)
    ∧ (finished = true ↔ value_of (Event_finish_in self w) = Some None)
    ∧ (Event.start_at self <= Event.finish_at self →
       finished = true → started = false).
Proof.
  exact (start_in_and_started (sample_event true 2500005 9000005 None None)
           (empty_world (frozen 5)) 5 eq_refl).
Defined.

(** *** More on [EventGeneratorPool.run] *)


(** What a run leaves of the table of generators: nothing changed (it
    raised before its loops), or the two loops applied, the second over
    objects of the first. *)
Lemma pool_run_generators w self :
  generators (world_of (EventGeneratorPool_run self w)) = generators w
  ∨ ∃ prepared,
      (∀ x, x ∈ prepared → x ∈ enabled_generators_of self w)
      ∧ generators (world_of (EventGeneratorPool_run self w))
        = foldl (fun m k => alter (EventGenerator.set_is_active true) k m)
            (foldl (fun m k => alter (EventGenerator.set_is_active false) k m)
               (generators w) (enabled_generators_of self w))
            prepared.
Proof.
  unfold EventGeneratorPool_run.
  erewrite bind_Return by reflexivity.
  destruct (pools w !! self) as [p|] eqn:Hp; cycle 1.
  { left. erewrite bind_Throw; [reflexivity|].
    unfold the_pool. by rewrite Hp. }
  erewrite bind_Return by (unfold the_pool; rewrite Hp; reflexivity).
  destruct (py_is (EventGeneratorPool.run_scheme p) LIT_any).
  - destruct (random_choice_cases (enabled_generators_of self w) w)
      as [Hchoice|(x & Hx & Hchoice)].
    + left. erewrite bind_Throw; [reflexivity|].
      by erewrite bind_Throw by exact Hchoice.
    + right. exists [x]. split; [by intros ? ->%list_elem_of_singleton|].
      erewrite bind_Return
        by (erewrite bind_Return by exact Hchoice; reflexivity).
      erewrite bind_Return by apply for_each_update.
      by rewrite for_each_update.
  - destruct (py_is (EventGeneratorPool.run_scheme p) LIT_all).
    + right. exists (enabled_generators_of self w). split; [done|].
      erewrite bind_Return by reflexivity.
      erewrite bind_Return by apply for_each_update.
      by rewrite for_each_update.
    + right. exists []. split; [by intros ? ?%elem_of_nil|].
      erewrite bind_Return by reflexivity.
      erewrite bind_Return by apply for_each_update.
      by rewrite for_each_update.
Qed.









Lemma set_is_active_same g :
  EventGenerator.set_is_active (EventGenerator.is_active g) g = g.
Proof. by destruct g. Qed.

(** **** X16 — of a generator a run can change [is_active] and nothing
    else: whatever the pool, the scheme and the outcome, every row of the
    table is afterwards the row it was with some value of [is_active], and
    no row appears or disappears. *)
Theorem pool_run_changes_is_active_only (w : World) (self k : Z) :
  ∃ b, generators (world_of (EventGeneratorPool_run self w)) !! k
       = EventGenerator.set_is_active b <$> generators w !! k.
Proof.
  destruct (pool_run_generators w self) as [->|(prepared & _ & ->)].
  - destruct (generators w !! k) as [g|]; [|by exists true].
    exists (EventGenerator.is_active g). simpl. by rewrite set_is_active_same.
  - rewrite !lookup_foldl_alter by apply set_is_active_idemp.
    destruct (decide (k ∈ prepared)).
    + exists true. destruct (decide (k ∈ enabled_generators_of self w));
        by destruct (generators w !! k).
    + destruct (decide (k ∈ enabled_generators_of self w)).
      * by exists false.
      * destruct (generators w !! k) as [g|]; [|by exists true].
        exists (EventGenerator.is_active g). simpl.
        by rewrite set_is_active_same.
Qed.

Lemma pool_run_keeps {B} (f : World → B) self :
  (∀ w m, f (with_generators m w) = f w) →
  (∀ w n, f (with_draws n w) = f w) →
  keeps f (EventGeneratorPool_run self).
Proof.
  intros Hg Hd.
  unfold EventGeneratorPool_run, query_enabled_generators, the_pool.
  repeat keeps_step; try (by intros w).
  - intros w. by destruct (pools w !! self).
  - intros w. unfold random_choice. destruct (_ !! _); [apply Hd|done].
  - intros w. apply Hg.
  - intros w. apply Hg.
Qed.

(** **** X17 — a run of a pool, however it ends, publishes and revokes no
    task, reads no clock, and leaves the tables of events and of pools as
    they were. *)
Theorem pool_run_touches_generators_only (w : World) (self : Z) :
  let w' := world_of (EventGeneratorPool_run self w) in
  sent w' = sent w ∧ revoked w' = revoked w ∧ next_uuid w' = next_uuid w
  ∧ ticks w' = ticks w
  ∧ events w' = events w ∧ next_event w' = next_event w
  ∧ pools w' = pools w.
Proof.
  cbv zeta. repeat split; by apply pool_run_keeps.
Qed.

(** *** More on [EventGenerator.run] *)

Lemma keeps_Event_create {B} (f : World → B) kwargs :
  (∀ w n, f (with_ticks n w) = f w) →
  (∀ w l n, f (with_sent l n w) = f w) →
  (∀ w m n, f (with_events m n w) = f w) →
  keeps f (Event_create kwargs).
Proof.
  intros Ht Hs He. unfold Event_create. repeat keeps_step.
  - by apply keeps_on_event_create.
  - intros w. apply Ht.
  - intros w. apply He.
Qed.

Lemma keeps_EventGenerator_run {B} (f : World → B) self is_active :
  (∀ w n, f (with_ticks n w) = f w) →
  (∀ w l n, f (with_sent l n w) = f w) →
  (∀ w m n, f (with_events m n w) = f w) →
  (∀ w m, f (with_generators m w) = f w) →
  keeps f (EventGenerator_run self is_active).
Proof.
  intros Ht Hs He Hg. unfold EventGenerator_run, the_generator.
  repeat keeps_step.
  - intros w. apply Ht.
  - intros w. apply Hg.
  - intros w. apply Hg.
  - intros w. by destruct (generators w !! self).
  - by apply keeps_Event_create.
Qed.

(** **** X18 — [run] of a generator, however it ends, leaves every other
    generator and every pool as it was and revokes no task. *)
Theorem generator_run_touches_own_row (w : World) (self k : Z) (is_active : bool) :
  k ≠ self →
  let w' := world_of (EventGenerator_run self is_active w) in
  generators w' !! k = generators w !! k
  ∧ pools w' = pools w
  ∧ revoked w' = revoked w.
Proof.
  intros Hk. cbv zeta. split; [|split; by apply keeps_EventGenerator_run].
  unfold EventGenerator_run.
  erewrite bind_Return by reflexivity.
  erewrite bind_Return by reflexivity.
  erewrite bind_Return by reflexivity.
  rewrite world_of_bind. unfold the_generator at 1.
  destruct (_ !! self).
  - rewrite keeps_generators_Event_create.
    cbn [generators with_generators with_ticks].
    by rewrite !lookup_alter_ne.
  - cbn [generators with_generators with_ticks].
    by rewrite !lookup_alter_ne.
Qed.

Lemma generator_run_touches_own_row_witness :
  let w' := world_of (EventGenerator_run 4 true (sample_world LIT_any 0)) in
  generators w' !! 2 = generators (sample_world LIT_any 0) !! 2
  ∧ pools w' = pools (sample_world LIT_any 0)
  ∧ revoked w' = revoked (sample_world LIT_any 0).
Proof.
  refine (generator_run_touches_own_row (sample_world LIT_any 0) 4 2 true _).
  discriminate.
Defined.




(** *** [Event.leave] *)

Lemma first_index_Some {A} (P : A → bool) rows i :
  first_index P rows = Some i →
  ∃ r, rows !! i = Some r ∧ P r = true.
Proof.
  revert i. induction rows as [|r rows IH]; intros i; simpl; [done|].
  destruct (P r) eqn:Hr.
  - intros [= <-]. by exists r.
  - destruct (first_index P rows) as [j|]; simpl; [|done].
    intros [= <-]. by apply IH.
Qed.

Lemma first_index_None {A} (P : A → bool) rows :
  first_index P rows = None ↔ ∀ r, r ∈ rows → P r = false.
Proof.
  induction rows as [|r rows IH]; simpl.
  - split; [by intros _ ? ?%elem_of_nil|done].
  - destruct (P r) eqn:Hr.
    + split; [done|]. intros H. specialize (H r ltac:(by constructor)).
      congruence.
    + destruct (first_index P rows) as [j|]; simpl.
      * split; [done|]. intros H.
        assert (Some j = None) as Hj; [|done].
        apply IH. intros q Hq. apply H. by constructor.
      * split; [|done]. intros _ q [->|Hq]%elem_of_cons; [done|].
        by apply IH.
Qed.

Lemma participation_matches_inv user event st p :
  participation_matches user event st p = true →
  EventParticipation.user_id p = user
  ∧ event = Some (EventParticipation.event_id p)
  ∧ EventParticipation.status p = st.
Proof.
  unfold participation_matches.
  intros [[Hu He]%andb_true_iff Hs]%andb_true_iff.
  apply Z.eqb_eq in Hu. apply String.eqb_eq in Hs.
  destruct event as [e|]; [|done]. apply Z.eqb_eq in He. by subst.
Qed.

(** What [leave] does, by the row it finds. *)
Lemma Event_leave_cases self user l :
  (first_index (participation_matches user (Event.id self) "joined")
               (participations l) = None
   ∧ Event_leave self user l
     = mkLedger (participations l) (callbacks l) (S (warnings l)))
  ∨ ∃ i p,
      participations l !! i = Some p
      ∧ participation_matches user (Event.id self) "joined" p = true
      ∧ Event_leave self user l
        = mkLedger (<[i := EventParticipation.set_status "leaved" p]>
                      (participations l))
                   (EventParticipation.id p :: callbacks l) (warnings l).
Proof.
  unfold Event_leave.
  destruct (first_index _ _) as [i|] eqn:Hi; [right|by left].
  destruct (first_index_Some _ _ _ Hi) as (p & Hp & Hm).
  exists i, p. split; [done|]. split; [done|].
  unfold assign_status. rewrite Hp. cbv zeta.
  unfold on_event_participation_status_changed.
  apply participation_matches_inv in Hm as (_ & _ & ->). reflexivity.
Qed.

(** **** X20 — [leave] keeps the number of rows and changes at most one of
    them: a row of another user, of another event or with a status other
    than ['joined'] is left as it is, and a row that does change keeps
    everything but its status, which goes from ['joined'] to ['leaved'].
    A notification is queued exactly when a row changed, a warning logged
    exactly when none did. *)
Theorem Event_leave_effect (self : Event.t) (user : Z) (l : Ledger) :
  let l' := Event_leave self user l in
  length (participations l') = length (participations l)
  ∧ (∀ j p, participations l !! j = Some p →
            participations l' !! j = Some p
            ∨ (participation_matches user (Event.id self) "joined" p = true
               ∧ participations l' !! j
                 = Some (EventParticipation.set_status "leaved" p)))
  ∧ ((participations l' = participations l ∧ callbacks l' = callbacks l
      ∧ warnings l' = S (warnings l))
     ∨ (∃ c, callbacks l' = c :: callbacks l ∧ warnings l' = warnings l
             ∧ ∃ j, participations l' !! j ≠ participations l !! j
                    ∧ ∀ j', j' ≠ j →
                            participations l' !! j' = participations l !! j')).
Proof.
  cbv zeta.
  destruct (Event_leave_cases self user l)
    as [[_ ->]|(i & p & Hp & Hm & ->)]; cbn [participations callbacks warnings].
  - split; [done|]. split; [by left|]. by left.
  - split; [apply length_insert|]. split.
    + intros j q Hq. destruct (decide (j = i)) as [->|Hne].
      * right. assert (q = p) as -> by congruence. split; [done|].
        apply list_lookup_insert_eq. by eapply lookup_lt_Some.
      * left. by rewrite list_lookup_insert_ne.
    + right. eexists. split; [reflexivity|]. split; [reflexivity|].
      exists i. split.
      * rewrite list_lookup_insert_eq by by eapply lookup_lt_Some.
        rewrite Hp. intros [= Heq].
        apply participation_matches_inv in Hm as (_ & _ & Hs).
        rewrite <- Heq in Hs. discriminate Hs.
      * intros j' Hne. by rewrite list_lookup_insert_ne.
Qed.

(** **** X21 — under the unique constraint of the table (one row per user
    and event), after [leave] no row of that user in that event is
    ['joined'], and a second [leave] changes no row and queues nothing:
    it only logs a warning. *)
Theorem Event_leave_twice (self : Event.t) (user : Z) (l : Ledger) :
  NoDup (participation_key <$> participations l) →
  let l1 := Event_leave self user l in
  let l2 := Event_leave self user l1 in
  (∀ p, p ∈ participations l1 →
        participation_matches user (Event.id self) "joined" p = false)
  ∧ participations l2 = participations l1
  ∧ callbacks l2 = callbacks l1
  ∧ warnings l2 = S (warnings l1).
Proof.
  intros Huniq. cbv zeta.
  assert (∀ p, p ∈ participations (Event_leave self user l) →
               participation_matches user (Event.id self) "joined" p = false)
    as Hnone.
  { destruct (Event_leave_cases self user l)
      as [[Hnone ->]|(i & p & Hp & Hm & ->)]; cbn [participations].
    - by apply first_index_None.
    - intros q [j Hq]%list_elem_of_lookup.
      destruct (decide (j = i)) as [->|Hne].
      + rewrite list_lookup_insert_eq in Hq by by eapply lookup_lt_Some.
        injection Hq as <-. unfold participation_matches.
        cbn [EventParticipation.status EventParticipation.set_status].
        by rewrite andb_false_r.
      + rewrite list_lookup_insert_ne in Hq by done.
        destruct (participation_matches user (Event.id self) "joined" q)
          eqn:Hmq; [|done].
        exfalso. apply Hne.
        apply participation_matches_inv in Hm as (Hu & He & _).
        apply participation_matches_inv in Hmq as (Hu' & He' & _).
        eapply NoDup_lookup; [exact Huniq| |].
        * rewrite list_lookup_fmap, Hq. reflexivity.
        * rewrite list_lookup_fmap, Hp. simpl. unfold participation_key.
          f_equal. f_equal; congruence. }
  split; [exact Hnone|].
  destruct (Event_leave_cases self user (Event_leave self user l))
    as [[_ ->]|(i & p & Hp & Hm & _)]; [done|].
  rewrite Hnone in Hm; [done|]. by eapply list_elem_of_lookup_2.
Qed.

Lemma Event_leave_twice_witness :
  let row := fun i user event st =>
               EventParticipation.mk i 0 st [] user event in
  let l := mkLedger [row 1 7 1 "joined"; row 2 8 1 "joined";
                     row 3 7 2 "joined"]%string [] 0 in
  let self := sample_event true 0 10 None None in
  let l1 := Event_leave self 7 l in
  let l2 := Event_leave self 7 l1 in
  (∀ p, p ∈ participations l1 →
        participation_matches 7 (Event.id self) "joined" p = false)
  ∧ participations l2 = participations l1
  ∧ callbacks l2 = callbacks l1
  ∧ warnings l2 = S (warnings l1).
Proof.
  cbv zeta.
  refine (Event_leave_twice (sample_event true 0 10 None None) 7
            (mkLedger [EventParticipation.mk 1 0 "joined" [] 7 1;
                       EventParticipation.mk 2 0 "joined" [] 8 1;
                       EventParticipation.mk 3 0 "joined" [] 7 2] [] 0) _).
  vm_compute. repeat constructor; rewrite ?elem_of_cons, ?elem_of_nil;
    intros H; repeat (destruct H as [H|H]); try discriminate H; done.
Defined.

(** *** [EventGenerator.active] against the selection of the pool *)

(** [active] reads of its own row only [enabled], [pool_id] and, outside
    a pool, [is_active]; of the pools only the one of the row. *)
Lemma EventGenerator_active_result k w :
  result_of (EventGenerator_active k w)
  = match generators w !! k with
    | None => Raise ObjectDeletedError
    | Some g =>
        if negb (EventGenerator.enabled g) then Ok false
        else match EventGenerator.pool_id g with
             | Some p =>
                 match pools w !! p with
                 | Some pool => Ok (EventGeneratorPool.is_active pool)
                 | None => Raise AttributeError
                 end
             | None => Ok (EventGenerator.is_active g)
             end
    end.
Proof.
  unfold EventGenerator_active, bind, the_generator.
  destruct (generators w !! k) as [g|]; [|done].
  destruct (EventGenerator.enabled g); cbn [negb]; [|done].
  destruct (EventGenerator.pool_id g) as [p|]; [|done].
  by destruct (pools w !! p).
Qed.

(** A row a run has changed is a row the query returned. *)
Lemma pool_run_row w self k :
  generators (world_of (EventGeneratorPool_run self w)) !! k
  = generators w !! k
  ∨ (k ∈ enabled_generators_of self w
     ∧ ∃ b, generators (world_of (EventGeneratorPool_run self w)) !! k
            = EventGenerator.set_is_active b <$> generators w !! k).
Proof.
  destruct (pool_run_generators w self) as [->|(prepared & Hsub & ->)];
    [by left|].
  rewrite !lookup_foldl_alter by apply set_is_active_idemp.
  destruct (decide (k ∈ enabled_generators_of self w)) as [Hin|Hout].
  - right. split; [done|]. destruct (decide (k ∈ prepared)).
    + exists true. by destruct (generators w !! k).
    + by exists false.
  - left. rewrite decide_False; [done|]. intros ?%Hsub. contradiction.
Qed.

(** **** X22 — the selection of a pool does not reach [active]: for every
    generator, in the pool or not, the property answers after a run of a
    pool what it answered before, since inside a pool it reads the pool's
    [is_active] and not the generator's. *)
Theorem pool_run_keeps_active (w : World) (self k : Z) :
  result_of (EventGenerator_active k (world_of (EventGeneratorPool_run self w)))
  = result_of (EventGenerator_active k w).
Proof.
  rewrite !EventGenerator_active_result.
  rewrite (pool_run_keeps_pools self w).
  destruct (pool_run_row w self k) as [->|(Hin & b & ->)]; [done|].
  apply elem_of_enabled_generators_of in Hin as (g & -> & Hm).
  cbn [fmap option_fmap option_map].
  cbn [EventGenerator.enabled EventGenerator.pool_id
       EventGenerator.is_active EventGenerator.set_is_active].
  unfold is_enabled_member in Hm.
  destruct (EventGenerator.pool_id g) as [p|]; [done|discriminate Hm].
Qed.
